(** * renewable_optimizer.py: battery sizing and dispatch cost model

    A shallow embedding of [src/renewable_optimizer.py] and the properties
    its specification states about it.

    Number model.  Python floats and numpy float64 values are modelled as
    exact real numbers ([R]): the arithmetic below is the arithmetic of the
    source with rounding and overflow left out.  A quotient whose divisor is
    zero is an IEEE infinity or NaN in numpy; the real quotient of the model
    means nothing there, and every statement that goes through such a
    quotient assumes the divisor is not zero.  Where the source itself
    handles non-finite values ([np.inf], [np.nan], [np.isfinite] in the trial
    harness and in the statistics) they are modelled by the type [npfloat].

    In exact arithmetic the capacity cancels in the quotients of
    [calculate_soc]; in the float64 arithmetic of the source the product and
    the quotient are rounded, and the rounding depends on the capacity.
    [calculate_soc] is therefore given a second time, over IEEE binary64
    numbers ([calculate_soc_f64]), and what is said of the dependence of
    its result on the capacity is said of that model.

    Python exceptions are modelled by [None] in the [option] monad. *)

From Stdlib Require Import PrimFloat Reals Lra Lia ZArith.
From stdpp Require Import base option list gmap strings.

Open Scope R_scope.

Set Warnings "-inexact-float".

(** ** Python and numpy helpers *)

#[global] Instance Rlt_decision (x y : R) : Decision (x < y) := Rlt_dec x y.
#[global] Instance Rgt_decision (x y : R) : Decision (x > y) := Rgt_dec x y.
#[global] Instance Rle_decision (x y : R) : Decision (x <= y) := Rle_dec x y.
#[global] Instance Req_decision : EqDecision R := Req_dec_T.

(** [np.clip(x, lo, hi)] is [minimum(maximum(x, lo), hi)]. *)
Definition np_clip (x lo hi : R) : R := Rmin (Rmax x lo) hi.

(** [np.clip(x, lo, None)]: only the lower bound. *)
Definition np_clip_lo (x lo : R) : R := Rmax x lo.

(** The builtin [max(0, x)]: the first argument unless the second is larger. *)
Definition py_max (a b : R) : R := if decide (b > a) then b else a.

(** The builtin [sum]: a left fold that starts from [0]. *)
Definition py_sum (l : list R) : R := foldl Rplus 0 l.

(** [np.mean] of a one-dimensional array. *)
Definition np_mean (l : list R) : R := py_sum l / INR (length l).

(** [x ** y] for a base [x >= 0] and an exponent [y > 0] (the only use in
    the source is [abs(P_bess)**1.5]); [Rpower] is the real power function
    on positive bases. *)
Definition py_pow (x y : R) : R := if decide (x <= 0) then 0 else Rpower x y.

(** [a[i]] and [a[i] = v] on an array, for an index [i >= 0]: both raise
    [IndexError] out of range. *)
Definition np_get {A} (a : list A) (i : nat) : option A := a !! i.

Definition np_set {A} (a : list A) (i : nat) (v : A) : option (list A) :=
  if decide (i < length a)%nat then Some (<[i := v]> a) else None.

(** [range(a, b)]. *)
Definition py_range (a b : nat) : list nat := seq a (b - a).

(** A [for] loop whose body may raise: the first exception ends the loop. *)
Fixpoint for_each {A St : Type} (body : St -> A -> option St) (xs : list A)
    (st : St) : option St :=
  match xs with
  | [] => Some st
  | x :: xs' => st' ← body st x; for_each body xs' st'
  end.

(** ** calculate_soc (lines 241-257) *)

(** One turn of the loop [for t in range(1, hours)]. *)
Definition soc_body (S : R) (u : list R) (SOC : list R) (t : nat)
    : option (list R) :=
  u_t ← np_get u t;
  let P_bess := u_t * S in
  let delta :=
    if decide (P_bess < 0) then (- P_bess * 0.95) / S
    else - P_bess / (0.95 * S) in
  prev ← np_get SOC (t - 1);
  SOC ← np_set SOC t (prev + delta);
  cur ← np_get SOC t;
  np_set SOC t (np_clip cur 0.1 0.9).

Definition calculate_soc (solution : list R) (hours : nat) : option (list R) :=
  S ← np_get solution 0;
  let u := drop 1 solution in
  let SOC := replicate hours 0 in
  SOC ← np_set SOC 0 0.5;
  for_each (soc_body S u) (py_range 1 hours) SOC.

(** ** calculate_soc in binary64 arithmetic (lines 241-257) *)

(** The same function over IEEE binary64 numbers: every product, quotient
    and sum is rounded to the nearest float, and a division by zero gives
    an infinity or a NaN, as for numpy's float64. *)

(** [np.clip] on float64 scalars: [minimum(maximum(x, lo), hi)], where a
    NaN first argument is returned as it is. *)
Definition np_clip_f64 (x lo hi : float) : float :=
  let y := if is_nan x then x else if (lo <? x)%float then x else lo in
  if is_nan y then y else if (y <? hi)%float then y else hi.

Definition soc_body_f64 (S : float) (u : list float) (SOC : list float)
    (t : nat) : option (list float) :=
  u_t ← np_get u t;
  let P_bess := (u_t * S)%float in
  let delta :=
    if (P_bess <? 0)%float then ((- P_bess * 0.95) / S)%float
    else (- P_bess / (0.95 * S))%float in
  prev ← np_get SOC (t - 1);
  SOC ← np_set SOC t (prev + delta)%float;
  cur ← np_get SOC t;
  np_set SOC t (np_clip_f64 cur 0.1 0.9).

Definition calculate_soc_f64 (solution : list float) (hours : nat)
    : option (list float) :=
  S ← np_get solution 0;
  let u := drop 1 solution in
  let SOC := replicate hours 0%float in
  SOC ← np_set SOC 0 0.5%float;
  for_each (soc_body_f64 S u) (py_range 1 hours) SOC.

(** As [for_each], for a loop that changes the state of an object: the
    state reached before the exception stays. *)
Fixpoint for_each_keep {A St : Type} (body : St -> A -> option St)
    (xs : list A) (st : St) : St * bool :=
  match xs with
  | [] => (st, true)
  | x :: xs' =>
      match body st x with
      | Some st' => for_each_keep body xs' st'
      | None => (st, false)
      end
  end.

(** ** RenewableOptimizer (lines 11-26) *)

(** The attributes of an instance.  Those that only [load_data] assigns are
    [None] until then: reading one raises [AttributeError]. *)
Record RenewableOptimizer := {
  hours : nat;
  pop_size : nat;
  max_iter : nat;
  capital_cost : R;
  c_deg : R;
  charge_eff : R;
  discharge_eff : R;
  SOC_min : R;
  SOC_max : R;
  data_variation : R;
  temperature : R;
  SOC_capacity_decay : list R;
  emergency_event : list Z;
  solar_failure : option (list Z);
  wind_failure : option (list Z);
  grid_available : option (list Z);
  P_solar : option (list R);
  P_wind : option (list R);
  P_gen : option (list R);
  P_demand : option (list R);
  grid_price : option (list R)
}.

(** [__init__(self, hours=24, population=30, max_iter=50)]. *)
Definition init (hours population max_iter : nat) : RenewableOptimizer := {|
  hours := hours;
  pop_size := population;
  max_iter := max_iter;
  capital_cost := 500;
  c_deg := 0.02;
  charge_eff := 0.95;
  discharge_eff := 0.95;
  SOC_min := 0.1;
  SOC_max := 0.9;
  data_variation := 0.15;
  temperature := 25;
  SOC_capacity_decay := (fun i => 1.0 - 0.005 * INR i) <$> py_range 0 24;
  emergency_event := replicate 24 0%Z;
  solar_failure := None;
  wind_failure := None;
  grid_available := None;
  P_solar := None;
  P_wind := None;
  P_gen := None;
  P_demand := None;
  grid_price := None
|}.

(** [self.temperature = T]. *)
Definition set_temperature (T : R) (self : RenewableOptimizer)
    : RenewableOptimizer := {|
  hours := hours self;
  pop_size := pop_size self;
  max_iter := max_iter self;
  capital_cost := capital_cost self;
  c_deg := c_deg self;
  charge_eff := charge_eff self;
  discharge_eff := discharge_eff self;
  SOC_min := SOC_min self;
  SOC_max := SOC_max self;
  data_variation := data_variation self;
  temperature := T;
  SOC_capacity_decay := SOC_capacity_decay self;
  emergency_event := emergency_event self;
  solar_failure := solar_failure self;
  wind_failure := wind_failure self;
  grid_available := grid_available self;
  P_solar := P_solar self;
  P_wind := P_wind self;
  P_gen := P_gen self;
  P_demand := P_demand self;
  grid_price := grid_price self
|}.

(** ** energy_cost (lines 56-114) *)

(** The variables the hourly loop updates: the locals [total_cost], [SOC]
    and [SOC_history], and the attribute [self.temperature]. *)
Record LoopState := {
  total_cost : R;
  SOC : R;
  SOC_history : list R;
  self_temperature : R
}.

(** [l[-3:]]: the last three elements, or all of a shorter list. *)
Definition last3 (l : list R) : list R := drop (length l - 3) l.

(** One turn of [for t_i in range(self.hours)] (lines 65-104).  Every
    subscript that can raise is evaluated before [self.temperature] is
    updated. *)
Definition hour_body (self : RenewableOptimizer) (S : R) (u : list R)
    (st : LoopState) (t_i : nat) : option LoopState :=
  decay ← np_get (SOC_capacity_decay self) t_i;
  let effective_S := S * decay in
  u_t ← np_get u t_i;
  let P_bess := u_t * effective_S in
  demand ← P_demand self;
  d_t ← np_get demand t_i;
  gen ← P_gen self;
  g_t ← np_get gen t_i;
  let P_grid := d_t - g_t - P_bess in
  (* emergency load *)
  e_t ← np_get (emergency_event self) t_i;
  let total_cost :=
    if decide (e_t ≠ 0%Z) then
      let required_power := d_t * 1.5 in
      let shortage := py_max 0 (required_power - (g_t + P_bess)) in
      total_cost st + shortage * 1000
    else total_cost st in
  (* grid constraints *)
  available ← grid_available self;
  a_t ← np_get available t_i;
  let total_cost :=
    if decide (a_t = 0%Z ∧ P_grid > 0) then total_cost + 1e6 else total_cost in
  (* costs *)
  grid_cost ←
    (if decide (P_grid > 0) then
       price ← grid_price self; p_t ← np_get price t_i; Some (P_grid * p_t)
     else Some 0);
  let degradation := 0.02 * py_pow (Rabs P_bess) 1.5 * (1 + SOC st / 0.9) in
  let carbon_cost := P_grid * 0.487 * 2 in
  let total_cost := total_cost + (grid_cost + degradation + carbon_cost) in
  (* thermal model *)
  let delta_temp := Rabs (P_bess / effective_S) / 0.05 in
  let temperature := self_temperature st + delta_temp in
  let total_cost :=
    if decide (temperature > 45) then total_cost + (temperature - 45) ^ 2 * 10
    else total_cost in
  (* SOC update *)
  let delta :=
    if decide (P_bess < 0) then (- P_bess * charge_eff self) / effective_S
    else - P_bess / (discharge_eff self * effective_S) in
  let SOC := np_clip (SOC st + delta) (SOC_min self) (SOC_max self) in
  let SOC_history := SOC_history st ++ [SOC] in
  (* chained SOC constraint *)
  let total_cost :=
    if decide (3 <= t_i)%nat then
      let avg_soc := np_mean (last3 SOC_history) in
      if decide (Rabs (SOC - avg_soc) > 0.2) then total_cost + 1e4
      else total_cost
    else total_cost in
  Some {| total_cost := total_cost; SOC := SOC; SOC_history := SOC_history;
          self_temperature := temperature |}.

(** Lines 106-114: the efficiency target and the periodic cost. *)
Definition cost_tail (self : RenewableOptimizer) (S : R) (u : list R)
    (total_cost : R) : option R :=
  gen ← P_gen self;
  demand ← P_demand self;
  let efficiency := (py_sum gen + py_sum ((fun x => x * S) <$> u))
                    / py_sum demand in
  let total_cost :=
    if decide (efficiency < 0.85) then total_cost + (0.85 - efficiency) * 1e4
    else total_cost in
  Some (total_cost + 100 * Rabs (sin (S * 0.01))).

(** [energy_cost(self, solution)]: the instance after the call (only
    [temperature] is assigned) and the returned cost, [None] when the call
    raises. *)
Definition energy_cost (self : RenewableOptimizer) (solution : list R)
    : RenewableOptimizer * option R :=
  match np_get solution 0 with
  | None => (self, None)
  | Some capacity =>
      let S := capacity in
      let u := drop 1 solution in
      let st0 := {| total_cost := capital_cost self * S; SOC := 0.5;
                    SOC_history := []; self_temperature := 25 |} in
      let '(st, ok) :=
        for_each_keep (hour_body self S u) (py_range 0 (hours self)) st0 in
      (set_temperature (self_temperature st) self,
       if ok then cost_tail self S u (total_cost st) else None)
  end.

(** ** Scenario data *)

(** The hourly arrays [load_data] assigns to the instance: the spec's
    Scenario, with the total generation [P_gen] the code keeps beside it. *)
Record Scenario := {
  sc_solar_failure : list Z;
  sc_wind_failure : list Z;
  sc_grid_available : list Z;
  sc_emergency_event : list Z;
  sc_P_solar : list R;
  sc_P_wind : list R;
  sc_P_gen : list R;
  sc_P_demand : list R;
  sc_grid_price : list R
}.

(** The assignments [self.solar_failure = ...] to [self.grid_price = ...]. *)
Definition set_scenario (sc : Scenario) (self : RenewableOptimizer)
    : RenewableOptimizer := {|
  hours := hours self;
  pop_size := pop_size self;
  max_iter := max_iter self;
  capital_cost := capital_cost self;
  c_deg := c_deg self;
  charge_eff := charge_eff self;
  discharge_eff := discharge_eff self;
  SOC_min := SOC_min self;
  SOC_max := SOC_max self;
  data_variation := data_variation self;
  temperature := temperature self;
  SOC_capacity_decay := SOC_capacity_decay self;
  emergency_event := sc_emergency_event sc;
  solar_failure := Some (sc_solar_failure sc);
  wind_failure := Some (sc_wind_failure sc);
  grid_available := Some (sc_grid_available sc);
  P_solar := Some (sc_P_solar sc);
  P_wind := Some (sc_P_wind sc);
  P_gen := Some (sc_P_gen sc);
  P_demand := Some (sc_P_demand sc);
  grid_price := Some (sc_grid_price sc)
|}.

(** The scenario an instance holds, once [load_data] has run. *)
Definition get_scenario (self : RenewableOptimizer) : option Scenario :=
  solar_failure ← solar_failure self;
  wind_failure ← wind_failure self;
  grid_available ← grid_available self;
  P_solar ← P_solar self;
  P_wind ← P_wind self;
  P_gen ← P_gen self;
  P_demand ← P_demand self;
  grid_price ← grid_price self;
  Some {| sc_solar_failure := solar_failure; sc_wind_failure := wind_failure;
          sc_grid_available := grid_available;
          sc_emergency_event := emergency_event self;
          sc_P_solar := P_solar; sc_P_wind := P_wind; sc_P_gen := P_gen;
          sc_P_demand := P_demand; sc_grid_price := grid_price |}.

(** A scenario that is the same in every hour: solar output [g], no wind,
    demand [d], price [p], the grid available and no emergency. *)
Definition steady_scenario (g d p : R) : Scenario := {|
  sc_solar_failure := replicate 24 0%Z;
  sc_wind_failure := replicate 24 0%Z;
  sc_grid_available := replicate 24 1%Z;
  sc_emergency_event := replicate 24 0%Z;
  sc_P_solar := replicate 24 g;
  sc_P_wind := replicate 24 0;
  sc_P_gen := replicate 24 g;
  sc_P_demand := replicate 24 d;
  sc_grid_price := replicate 24 p
|}.

(** A solution that leaves the battery idle: capacity [S], [u_t = 0]. *)
Definition idle_solution (S : R) : list R := S :: replicate 24 0.

(** ** numpy arrays and numpy.random *)

(** An element-wise binary operation on one-dimensional arrays, with
    numpy's broadcasting: equal lengths, or one operand of length 1;
    any other pair of shapes raises [ValueError]. *)
Definition np_broadcast (f : R -> R -> R) (xs ys : list R) : option (list R) :=
  if decide (length xs = length ys) then Some (zip_with f xs ys)
  else match xs, ys with
       | [x], _ => Some (f x <$> ys)
       | _, [y] => Some ((fun x => f x y) <$> xs)
       | _, _ => None
       end.

Definition np_mul : list R -> list R -> option (list R) := np_broadcast Rmult.
Definition np_add : list R -> list R -> option (list R) := np_broadcast Rplus.

(** [np.arange(n)]. *)
Definition np_arange (n : nat) : list Z := Z.of_nat <$> seq 0 n.

(** [a[idx] *= f] for an index array [idx]: the products [a[idx] * f] are
    computed first and then stored one index after the other, so that the
    last store wins where an index repeats. *)
Definition np_imul_at (a : list R) (idx : list nat) (f : list R)
    : option (list R) :=
  vals ← mapM (np_get a) idx;
  prod ← np_mul vals f;
  if decide (length prod = length idx)
  then Some (foldl (fun a iv => <[iv.1 := iv.2]> a) a (zip idx prod))
  else None.

(** The global generator of [numpy.random], an external library: its state
    and the five calls [load_data] makes, each returning the drawn array and
    the next state.  The laws are those of the numpy documentation: shapes,
    and the range of the values drawn.
    - [np.random.seed(s)] replaces the state by one that depends on [s]
      only, and raises [ValueError] unless [0 <= s < 2**32];
    - [np.random.randn(n)], [np.random.normal(mu, sigma, n)];
    - [np.random.choice(a, n, p=p)] draws [n] elements of the list [a];
    - [np.random.choice(a, size=k, replace=False)] draws [k] distinct
      numbers below [a];
    - [np.random.uniform(lo, hi, size=n)]. *)
Class NumpyRandom := {
  rng_state : Type;
  np_random_seed : Z -> option rng_state;
  np_random_randn : nat -> rng_state -> list R * rng_state;
  np_random_choice : list Z -> nat -> list R -> rng_state -> list Z * rng_state;
  np_random_normal : R -> R -> nat -> rng_state -> list R * rng_state;
  np_random_choice_distinct : nat -> nat -> rng_state -> list nat * rng_state;
  np_random_uniform : R -> R -> nat -> rng_state -> list R * rng_state;
  seed_range s : is_Some (np_random_seed s) <-> (0 <= s < 2 ^ 32)%Z;
  randn_length n g : length (np_random_randn n g).1 = n;
  choice_length a n p g : a ≠ [] -> length (np_random_choice a n p g).1 = n;
  choice_elem a n p g : Forall (fun x => x ∈ a) (np_random_choice a n p g).1;
  normal_length mu sigma n g : length (np_random_normal mu sigma n g).1 = n;
  choice_distinct_length a k g :
    (k <= a)%nat -> length (np_random_choice_distinct a k g).1 = k;
  choice_distinct_bound a k g :
    Forall (fun i => (i < a)%nat) (np_random_choice_distinct a k g).1;
  choice_distinct_NoDup a k g : NoDup (np_random_choice_distinct a k g).1;
  uniform_length lo hi n g : length (np_random_uniform lo hi n g).1 = n;
  uniform_range lo hi n g :
    lo <= hi -> Forall (fun x => lo <= x <= hi) (np_random_uniform lo hi n g).1
}.

(** ** load_data (lines 28-54) *)

(** [load_data(self, trial_num)] with the generator in state [g]: the
    instance with the scenario assigned and the generator's next state;
    [None] when the call raises (the attributes assigned before the
    exception are not modelled). *)
Definition load_data `{NumpyRandom} (self : RenewableOptimizer) (trial_num : Z)
    (g : rng_state) : option (RenewableOptimizer * rng_state) :=
  g ← np_random_seed trial_num;
  let t := np_arange (hours self) in
  (* base data *)
  let base_solar := (fun t => 50 * sin (PI * IZR (t - 6) / 12) + 1) <$> t in
  let base_wind := (fun t => 30 * cos (PI * IZR (t - 12) / 6) + 5) <$> t in
  let base_demand := (fun t => 80 + 30 * sin (PI * IZR (t + 6) / 12)) <$> t in
  let base_price :=
    (fun t => 0.15 + 0.05 * sin (PI * IZR (t - 8) / 12) + 0.05) <$> t in
  (* variation and outages *)
  let '(z, g) := np_random_randn (hours self) g in
  let variation := (fun z => 1 + data_variation self * z) <$> z in
  let '(solar_failure, g) := np_random_choice [0; 1]%Z 24 [0.9; 0.1] g in
  let '(wind_failure, g) := np_random_choice [0; 1]%Z 24 [0.85; 0.15] g in
  let '(grid_available, g) := np_random_choice [0; 1]%Z 24 [0.2; 0.8] g in
  let '(emergency_event, g) := np_random_choice [0; 1]%Z 24 [0.9; 0.1] g in
  (* generation and demand *)
  solar ← np_mul base_solar variation;
  solar ← np_mul solar (IZR <$> solar_failure);
  let P_solar := (fun x => np_clip_lo x 0) <$> solar in
  wind ← np_mul base_wind variation;
  wind ← np_mul wind (IZR <$> wind_failure);
  let P_wind := (fun x => np_clip_lo x 0) <$> wind in
  P_gen ← np_add P_solar P_wind;
  demand ← np_mul base_demand variation;
  let '(noise, g) := np_random_normal 1 0.15 24 g in
  P_demand ← np_mul demand noise;
  (* pricing and spikes *)
  price ← np_mul base_price variation;
  let grid_price := (fun x => np_clip_lo x 0.05) <$> price in
  let '(spike_hours, g) := np_random_choice_distinct 24 4 g in
  let '(factors, g) := np_random_uniform 3 5 4 g in
  grid_price ← np_imul_at grid_price spike_hours factors;
  Some (set_scenario
          {| sc_solar_failure := solar_failure;
             sc_wind_failure := wind_failure;
             sc_grid_available := grid_available;
             sc_emergency_event := emergency_event;
             sc_P_solar := P_solar; sc_P_wind := P_wind; sc_P_gen := P_gen;
             sc_P_demand := P_demand; sc_grid_price := grid_price |} self,
        g).

(** ** Costs in the harness and in the statistics *)

(** A float that may be non-finite: the harness stores [np.inf] for a
    failed run and the statistics test [np.isfinite] and return [np.nan]. *)
Inductive npfloat :=
  | Finite (r : R)
  | PosInf
  | NegInf
  | NaN.

Definition np_inf : npfloat := PosInf.
Definition np_nan : npfloat := NaN.

Definition np_isfinite (x : npfloat) : bool :=
  match x with Finite _ => true | _ => false end.

(** ** run_multiple_trials (lines 320-348) *)

(** The entry [trial_results[name]] of one algorithm in one trial. *)
Record TrialResult := {
  tr_cost : npfloat;
  tr_history : list npfloat;
  tr_solution : option (list R)
}.

(** The entry [results[name]]: the three lists that grow by one element
    per trial. *)
Record AlgoResults := {
  costs : list npfloat;
  histories : list (list npfloat);
  solutions : list (option (list R))
}.

(** The optimizer class and the algorithms it wraps are arguments of the
    harness.  [World] is all the state they share: the instance of the
    class, the global random generator, the state of the libraries.
    - [new_optimizer trial]: [optimizer_class()] and then
      [optimizer.load_data(trial)], outside the [try]: [None] when one of
      them raises.
    - [call_method method_name]: [getattr(optimizer, method_name)], the call
      and the unpacking of its result into [best_x, history], all inside the
      [try]: the new state, and [None] when an [Exception] is raised. *)
Record OptimizerClass (World : Type) := {
  new_optimizer : nat -> World -> option World;
  call_method : string -> World -> World * option (list R * list npfloat)
}.
Arguments new_optimizer {World}.
Arguments call_method {World}.

(** The body of the [try] after the call, and the [except] branch. *)
Definition record_outcome (o : option (list R * list npfloat)) : TrialResult :=
  match o with
  | Some (best_x, history) =>
      {| tr_cost := match last history with Some c => c | None => np_inf end;
         tr_history := history;
         tr_solution := Some best_x |}
  | None => {| tr_cost := np_inf; tr_history := []; tr_solution := None |}
  end.

(** [for name, method_name in algorithms.items()]: the dictionary
    [algorithms] as the list of its items in insertion order. *)
Fixpoint run_algorithms {World} (cls : OptimizerClass World)
    (algorithms : list (string * string)) (w : World)
    (trial_results : gmap string TrialResult)
    : World * gmap string TrialResult :=
  match algorithms with
  | [] => (w, trial_results)
  | (name, method_name) :: rest =>
      let '(w, o) := call_method cls method_name w in
      run_algorithms cls rest w (<[name := record_outcome o]> trial_results)
  end.

(** The three [append] calls on [results[name]]. *)
Definition append_result (data : TrialResult) (r : AlgoResults) : AlgoResults :=
  {| costs := costs r ++ [tr_cost data];
     histories := histories r ++ [tr_history data];
     solutions := solutions r ++ [tr_solution data] |}.

(** [for name, data in trial_results.items(): results[name][...].append(...)]. *)
Definition append_trial (trial_results : gmap string TrialResult)
    (results : gmap string AlgoResults) : gmap string AlgoResults :=
  map_fold (fun name data results => alter (append_result data) name results)
    results trial_results.

(** [for trial in range(num_trials)]. *)
Fixpoint trials_loop {World} (cls : OptimizerClass World)
    (algorithms : list (string * string)) (trials : list nat) (w : World)
    (results : gmap string AlgoResults) : option (gmap string AlgoResults) :=
  match trials with
  | [] => Some results
  | trial :: rest =>
      w ← new_optimizer cls trial w;
      let '(w, trial_results) := run_algorithms cls algorithms w ∅ in
      trials_loop cls algorithms rest w (append_trial trial_results results)
  end.

Definition empty_results : AlgoResults :=
  {| costs := []; histories := []; solutions := [] |}.

(** [run_multiple_trials(optimizer_class, algorithms, num_trials)], started
    in the state [w]: [None] when an exception leaves the function. *)
Definition run_multiple_trials {World} (cls : OptimizerClass World)
    (algorithms : list (string * string)) (num_trials : nat) (w : World)
    : option (gmap string AlgoResults) :=
  let results : gmap string AlgoResults :=
    list_to_map ((fun item => (item.1, empty_results)) <$> algorithms) in
  trials_loop cls algorithms (py_range 0 num_trials) w results.

(** ** analyze_results (lines 350-376) *)

Record Stats := {
  mean : npfloat;
  std : npfloat;
  min : npfloat;
  max : npfloat;
  success_rate : npfloat
}.

(** [costs[np.isfinite(costs)]]: the finite entries, in order, as reals. *)
Definition finite_values (costs : list npfloat) : list R :=
  omap (fun c => match c with Finite r => Some r | _ => None end) costs.

(** [np.std]: the population standard deviation. *)
Definition np_std (l : list R) : R :=
  sqrt (np_mean ((fun x => Rabs (x - np_mean l) ^ 2) <$> l)).

(** [np.min] and [np.max] of a non-empty array. *)
Definition np_min (l : list R) : R := foldr Rmin (hd 0 l) l.
Definition np_max (l : list R) : R := foldr Rmax (hd 0 l) l.

(** The body of [for algo, data in results.items()]. *)
Definition analyze (data : AlgoResults) : Stats :=
  let valid_trials := finite_values (costs data) in
  if decide (length valid_trials = 0%nat) then
    {| mean := np_nan; std := np_nan; min := np_nan; max := np_nan;
       success_rate := Finite 0.0 |}
  else
    {| mean := Finite (np_mean valid_trials);
       std := Finite (np_std valid_trials);
       min := Finite (np_min valid_trials);
       max := Finite (np_max valid_trials);
       success_rate :=
         Finite (INR (length valid_trials) / INR (length (costs data))) |}.

Definition analyze_results (results : gmap string AlgoResults)
    : gmap string Stats :=
  analyze <$> results.

(** * Vocabulary of the statements *)

(** ** State of charge and hourly cost *)

Definition soc_ok (x : R) : Prop := 0.1 <= x <= 0.9.

(** What one turn of the loop stores at position [t]. *)
Definition soc_delta (S u_t : R) : R :=
  if decide (u_t * S < 0) then (- (u_t * S) * 0.95) / S
  else - (u_t * S) / (0.95 * S).

Definition soc_inv (hours k : nat) (SOC : list R) : Prop :=
  length SOC = hours /\ SOC !! 0%nat = Some 0.5 /\
  forall i x, (i < k)%nat -> SOC !! i = Some x -> soc_ok x.

(** What one turn computes once every subscript is in range. *)
Definition hour_update (self : RenewableOptimizer) (S decay u_t d_t g_t : R)
    (e_t a_t : Z) (p_t : R) (st : LoopState) (t_i : nat) : LoopState :=
  let effective_S := S * decay in
  let P_bess := u_t * effective_S in
  let P_grid := d_t - g_t - P_bess in
  let c1 :=
    if decide (e_t ≠ 0%Z)
    then total_cost st + py_max 0 (d_t * 1.5 - (g_t + P_bess)) * 1000
    else total_cost st in
  let c2 := if decide (a_t = 0%Z ∧ P_grid > 0) then c1 + 1e6 else c1 in
  let grid_cost := if decide (P_grid > 0) then P_grid * p_t else 0 in
  let degradation := 0.02 * py_pow (Rabs P_bess) 1.5 * (1 + SOC st / 0.9) in
  let c3 := c2 + (grid_cost + degradation + P_grid * 0.487 * 2) in
  let temperature := self_temperature st + Rabs (P_bess / effective_S) / 0.05 in
  let c4 :=
    if decide (temperature > 45) then c3 + (temperature - 45) ^ 2 * 10 else c3 in
  let delta :=
    if decide (P_bess < 0) then (- P_bess * charge_eff self) / effective_S
    else - P_bess / (discharge_eff self * effective_S) in
  let soc := np_clip (SOC st + delta) (SOC_min self) (SOC_max self) in
  let history := SOC_history st ++ [soc] in
  let c5 :=
    if decide (3 <= t_i)%nat then
      if decide (Rabs (soc - np_mean (last3 history)) > 0.2) then c4 + 1e4
      else c4
    else c4 in
  {| total_cost := c5; SOC := soc; SOC_history := history;
     self_temperature := temperature |}.

(** The cost one idle hour adds: the grid import and the carbon term. *)
Definition steady_hour_cost (g d p : R) : R :=
  (if decide (d - g > 0) then (d - g) * p else 0) + (d - g) * 0.487 * 2.

Definition steady_state (S g d p : R) (k : nat) : LoopState :=
  {| total_cost := 500 * S + INR k * steady_hour_cost g d p; SOC := 0.5;
     SOC_history := replicate k 0.5; self_temperature := 25 |}.

(** The shape [energy_cost] needs of the arrays it reads. *)
Definition scenario_shape (sc : Scenario) : Prop :=
  length (sc_P_gen sc) = 24%nat /\ length (sc_P_demand sc) = 24%nat /\
  length (sc_grid_price sc) = 24%nat /\
  length (sc_grid_available sc) = 24%nat /\
  length (sc_emergency_event sc) = 24%nat.


(** The stores of [a[idx] *= f]. *)
Definition store_all (a : list R) (ivs : list (nat * R)) : list R :=
  foldl (fun a iv => <[iv.1 := iv.2]> a) a ivs.

(** ** The draws of [load_data] *)

Section draws.
Context `{NumpyRandom}.

(** The arrays drawn by one call of [load_data], in the order of the
    calls, and the state of the generator after them. *)
Record Draws := {
  dr_z : list R;
  dr_solar_failure : list Z;
  dr_wind_failure : list Z;
  dr_grid_available : list Z;
  dr_emergency_event : list Z;
  dr_noise : list R;
  dr_spike_hours : list nat;
  dr_factors : list R;
  dr_state : rng_state
}.

Definition draw_all (g : rng_state) : Draws :=
  let '(z, g) := np_random_randn 24 g in
  let '(solar_failure, g) := np_random_choice [0; 1]%Z 24 [0.9; 0.1] g in
  let '(wind_failure, g) := np_random_choice [0; 1]%Z 24 [0.85; 0.15] g in
  let '(grid_available, g) := np_random_choice [0; 1]%Z 24 [0.2; 0.8] g in
  let '(emergency_event, g) := np_random_choice [0; 1]%Z 24 [0.9; 0.1] g in
  let '(noise, g) := np_random_normal 1 0.15 24 g in
  let '(spike_hours, g) := np_random_choice_distinct 24 4 g in
  let '(factors, g) := np_random_uniform 3 5 4 g in
  {| dr_z := z; dr_solar_failure := solar_failure;
     dr_wind_failure := wind_failure; dr_grid_available := grid_available;
     dr_emergency_event := emergency_event; dr_noise := noise;
     dr_spike_hours := spike_hours; dr_factors := factors; dr_state := g |}.

Definition base_solar (t : Z) : R := 50 * sin (PI * IZR (t - 6) / 12) + 1.

Definition base_wind (t : Z) : R := 30 * cos (PI * IZR (t - 12) / 6) + 5.

Definition base_demand (t : Z) : R := 80 + 30 * sin (PI * IZR (t + 6) / 12).

Definition base_price (t : Z) : R :=
  0.15 + 0.05 * sin (PI * IZR (t - 8) / 12) + 0.05.

Definition variation_of (dv : R) (d : Draws) : list R :=
  (fun z => 1 + dv * z) <$> dr_z d.

(** The price before the spikes: the noisy base curve with its floor. *)
Definition floored_price (dv : R) (d : Draws) : list R :=
  (fun x => np_clip_lo x 0.05)
    <$> zip_with Rmult (base_price <$> np_arange 24) (variation_of dv d).

Definition generation (base : Z -> R) (dv : R) (d : Draws) (flags : list Z)
    : list R :=
  (fun x => np_clip_lo x 0)
    <$> zip_with Rmult
          (zip_with Rmult (base <$> np_arange 24) (variation_of dv d))
          (IZR <$> flags).

(** The scenario [load_data] builds from the draws when [hours = 24]. *)
Definition scenario_from (dv : R) (d : Draws) : Scenario := {|
  sc_solar_failure := dr_solar_failure d;
  sc_wind_failure := dr_wind_failure d;
  sc_grid_available := dr_grid_available d;
  sc_emergency_event := dr_emergency_event d;
  sc_P_solar := generation base_solar dv d (dr_solar_failure d);
  sc_P_wind := generation base_wind dv d (dr_wind_failure d);
  sc_P_gen := zip_with Rplus (generation base_solar dv d (dr_solar_failure d))
                (generation base_wind dv d (dr_wind_failure d));
  sc_P_demand :=
    zip_with Rmult
      (zip_with Rmult (base_demand <$> np_arange 24) (variation_of dv d))
      (dr_noise d);
  sc_grid_price :=
    store_all (floored_price dv d)
      (zip (dr_spike_hours d)
         (zip_with Rmult
            ((fun i => default 0 (floored_price dv d !! i))
               <$> dr_spike_hours d)
            (dr_factors d)))
|}.

(** The scenario a call of [load_data] leaves on the instance. *)
Definition loaded_scenario (r : option (RenewableOptimizer * rng_state))
    : option (option Scenario) :=
  (fun r => get_scenario r.1) <$> r.

End draws.

(** ** Harness and statistics *)

(** The record of a run that raised. *)
Definition failed_run : TrialResult :=
  {| tr_cost := np_inf; tr_history := []; tr_solution := None |}.

(** [n] failed runs in a row. *)
Definition failed_runs (n : nat) : AlgoResults :=
  {| costs := replicate n np_inf; histories := replicate n [];
     solutions := replicate n None |}.

Definition grown_by (k : nat) (r r' : AlgoResults) : Prop :=
  length (costs r') = (length (costs r) + k)%nat /\
  length (histories r') = (length (histories r) + k)%nat /\
  length (solutions r') = (length (solutions r) + k)%nat.

(** Two optimizer classes that differ in what the method [m] returns or
    raises only: the same set-up, the same behaviour of every other method,
    and the same effect of [m] on the shared state. *)
Definition differ_in_outcome_of {World} (m : string)
    (cls cls' : OptimizerClass World) : Prop :=
  (forall trial w, new_optimizer cls' trial w = new_optimizer cls trial w) /\
  (forall m' w, m' ≠ m -> call_method cls' m' w = call_method cls m' w) /\
  (forall w, (call_method cls' m w).1 = (call_method cls m w).1).

(** The names registered with a method other than [m]. *)
Definition other_algorithm (algorithms : list (string * string)) (m b : string)
    : Prop :=
  forall m_b, (b, m_b) ∈ algorithms -> m_b ≠ m.

(** A class for a concrete run: the shared state counts the calls made in
    the trial; ["run_bad"] raises at every call, after it has changed the
    state; any other method returns the solution [[100]] and a history that
    ends with the number of calls made before it. *)
Definition demo_class : OptimizerClass nat := {|
  new_optimizer := fun trial w => Some 0%nat;
  call_method := fun method_name w =>
    if String.eqb method_name "run_bad" then (Datatypes.S w, None)
    else (Datatypes.S w, Some ([100], [Finite 7; Finite (INR w)]))
|}.

Definition demo_algorithms : list (string * string) :=
  [("BAD", "run_bad"); ("GWO", "run_gwo")]%string.

Definition demo_results : gmap string AlgoResults :=
  {[ "GWO"%string :=
       {| costs := [Finite 3; PosInf; Finite 5; NaN];
          histories := [[Finite 3]; []; [Finite 5]; [NaN]];
          solutions := [Some [100]; None; Some [200]; Some [1]] |} ]}.

(** What a call of a method gave: the pair it returned, or [None] when it
    raised. *)
Definition Outcome : Type := option (list R * list npfloat).

(** The calls of one trial, in the order of the registry, each with the
    name it is registered under and its outcome; and the state they leave. *)
Fixpoint trial_calls {World} (cls : OptimizerClass World)
    (algorithms : list (string * string)) (w : World)
    : World * list (string * Outcome) :=
  match algorithms with
  | [] => (w, [])
  | (name, method_name) :: rest =>
      let '(w, o) := call_method cls method_name w in
      let '(w, calls) := trial_calls cls rest w in
      (w, (name, o) :: calls)
  end.

(** The calls of the whole run, trial by trial; [None] when the set-up of a
    trial raises. *)
Fixpoint all_calls {World} (cls : OptimizerClass World)
    (algorithms : list (string * string)) (trials : list nat) (w : World)
    : option (list (list (string * Outcome))) :=
  match trials with
  | [] => Some []
  | trial :: rest =>
      w ← new_optimizer cls trial w;
      let '(w, calls) := trial_calls cls algorithms w in
      later ← all_calls cls algorithms rest w;
      Some (calls :: later)
  end.

(** The outcome of the call made for the name [b] in one trial. *)
Fixpoint outcome_of (b : string) (calls : list (string * Outcome))
    : option Outcome :=
  match calls with
  | [] => None
  | (name, o) :: rest => if decide (name = b) then Some o else outcome_of b rest
  end.

(** The outcomes of the calls made for [b], one per trial. *)
Definition outcomes_of (b : string) (calls : list (list (string * Outcome)))
    : list Outcome :=
  omap (outcome_of b) calls.

(** What the specification has the harness record for an outcome: the last
    value of the returned history as the cost ([+inf] for an empty history),
    the history and the solution; [+inf], no history and no solution for a
    call that raised. *)
Definition recorded_cost (o : Outcome) : npfloat :=
  match o with
  | Some (_, history) => default np_inf (last history)
  | None => np_inf
  end.

Definition recorded_history (o : Outcome) : list npfloat :=
  match o with Some (_, history) => history | None => [] end.

Definition recorded_solution (o : Outcome) : option (list R) :=
  match o with Some (best_x, _) => Some best_x | None => None end.

Definition recorded (outs : list Outcome) : AlgoResults :=
  {| costs := recorded_cost <$> outs;
     histories := recorded_history <$> outs;
     solutions := recorded_solution <$> outs |}.

(** Two optimizer classes with the same set-up and the same behaviour of
    every method other than [m]. *)
Definition same_but_for {World} (m : string) (cls cls' : OptimizerClass World)
    : Prop :=
  (forall trial w, new_optimizer cls' trial w = new_optimizer cls trial w) /\
  (forall m' w, m' ≠ m -> call_method cls' m' w = call_method cls m' w).

(** As [demo_class], but ["run_bad"] raises before it changes the state. *)
Definition demo_class_quiet : OptimizerClass nat := {|
  new_optimizer := fun trial w => Some 0%nat;
  call_method := fun method_name w =>
    if String.eqb method_name "run_bad" then (w, None)
    else (Datatypes.S w, Some ([100], [Finite 7; Finite (INR w)]))
|}.

(** ** A generator with fixed draws

    The instance [fixed_random z pick x] of numpy.random used for concrete
    runs: every standard normal draw is [z], [choice(a, ...)] always picks
    the element of [a] at position [pick] (the last one if [a] is shorter),
    [normal(mu, sigma)] draws [mu + sigma * x], [uniform(lo, hi)] draws [lo]
    and the distinct hours are [0, 1, ...].  Its seed accepts what
    [np.random.seed] accepts. *)

Definition fixed_seed (s : Z) : option unit :=
  if decide (0 <= s < 2 ^ 32)%Z then Some () else None.

Definition fixed_choice (pick : nat) (a : list Z) (n : nat) : list Z :=
  match a !! (pick `min` (length a - 1))%nat with
  | Some v => replicate n v
  | None => []
  end.

Definition fixed_distinct (a k : nat) : list nat :=
  if decide (k <= a)%nat then seq 0 k else [].

(** ** Vocabulary of the further properties *)

(** The state of the array after the turns [1 .. k-1]: every stored element
    is the clamped sum of its predecessor and the step of its hour. *)
Definition soc_rec_inv (S : R) (u : list R) (hours k : nat) (SOC : list R)
    : Prop :=
  length SOC = hours /\ SOC !! 0%nat = Some 0.5 /\
  forall t, (1 <= t < k)%nat ->
    exists prev u_t, SOC !! (t - 1)%nat = Some prev /\ u !! t = Some u_t /\
      SOC !! t = Some (np_clip (prev + soc_delta S u_t) 0.1 0.9).

(** One step of the trace for a positive capacity: charging ([u_t < 0])
    adds [0.95 * |u_t|], discharging takes [u_t / 0.95], and the result is
    clamped to [0.1, 0.9]. *)
Definition soc_next (prev u_t : R) : R :=
  np_clip (prev + (if decide (u_t < 0) then - u_t * 0.95 else - u_t / 0.95))
    0.1 0.9.

(** The temperature after the dispatch fractions [u]: 25 degrees and
    [|u_t| / 0.05] more for every hour. *)
Definition heat (u : list R) : R := foldl (fun T x => T + Rabs x / 0.05) 25 u.

(** The scenario with no emergency and the grid available in every hour. *)
Definition without_events (sc : Scenario) : Scenario := {|
  sc_solar_failure := sc_solar_failure sc;
  sc_wind_failure := sc_wind_failure sc;
  sc_grid_available := replicate 24 1%Z;
  sc_emergency_event := replicate 24 0%Z;
  sc_P_solar := sc_P_solar sc;
  sc_P_wind := sc_P_wind sc;
  sc_P_gen := sc_P_gen sc;
  sc_P_demand := sc_P_demand sc;
  sc_grid_price := sc_grid_price sc
|}.

(** What the events of hour [t] cost: 1000 per unit of emergency shortfall
    (lines 70-73) and 1e6 when power is drawn from an unavailable grid
    (lines 76-77). *)
Definition event_cost (sc : Scenario) (S : R) (u : list R) (t : nat) : R :=
  match u !! t, sc_P_demand sc !! t, sc_P_gen sc !! t,
        sc_emergency_event sc !! t, sc_grid_available sc !! t with
  | Some u_t, Some d, Some g, Some e, Some a =>
      let P_bess := u_t * (S * (1.0 - 0.005 * INR t)) in
      (if decide (e ≠ 0%Z) then py_max 0 (d * 1.5 - (g + P_bess)) * 1000 else 0)
      + (if decide (a = 0%Z ∧ d - g - P_bess > 0) then 1e6 else 0)
  | _, _, _, _, _ => 0
  end.

(** Two runs that differ in the flags and in the running cost only. *)
Definition same_battery_state (s1 s2 : LoopState) : Prop :=
  SOC s1 = SOC s2 /\ SOC_history s1 = SOC_history s2 /\
  self_temperature s1 = self_temperature s2.

Definition is_flag (x : Z) : Prop := x = 0%Z \/ x = 1%Z.

(** A class whose set-up raises in trial 1. *)
Definition demo_class_setup_fails : OptimizerClass nat := {|
  new_optimizer := fun trial w => if Nat.eqb trial 1 then None else Some 0%nat;
  call_method := call_method demo_class
|}.

(** The three lists of an algorithm agree entry by entry: the cost of a
    trial is the last element of its history, [+inf] when the history is
    empty, and a trial without a solution has an empty history. *)
Definition entry_consistent (c : npfloat) (h : list npfloat)
    (s : option (list R)) : Prop :=
  c = match last h with Some x => x | None => np_inf end /\
  (s = None -> h = []).

Definition results_consistent (r : AlgoResults) : Prop :=
  length (costs r) = length (histories r) /\
  length (histories r) = length (solutions r) /\
  forall i c h s, costs r !! i = Some c -> histories r !! i = Some h ->
    solutions r !! i = Some s -> entry_consistent c h s.

(** * Properties *)

(** ** Real-number case analysis *)

Ltac Rcases :=
  repeat (case_decide; try lra);
  unfold np_clip, np_clip_lo, py_max, Rmin, Rmax in *;
  repeat (destruct (Rle_dec _ _); try lra);
  repeat (case_decide; try lra).

Lemma np_clip_bounds (x lo hi : R) :
  lo <= hi -> lo <= np_clip x lo hi <= hi.
Proof. intros. Rcases. Qed.

Lemma np_set_Some {A} (a a' : list A) i v :
  np_set a i v = Some a' -> (i < length a)%nat /\ a' = <[i := v]> a.
Proof. unfold np_set. case_decide; naive_solver. Qed.

Lemma np_set_lt {A} (a : list A) i v :
  (i < length a)%nat -> np_set a i v = Some (<[i := v]> a).
Proof. unfold np_set. intros. by rewrite decide_True. Qed.

(** ** The state-of-charge trace *)

Lemma soc_body_Some S u SOC t u_t prev :
  u !! t = Some u_t -> SOC !! (t - 1)%nat = Some prev -> (t < length SOC)%nat ->
  soc_body S u SOC t
  = Some (<[t := np_clip (prev + soc_delta S u_t) 0.1 0.9]> SOC).
Proof.
  intros Hu Hp Ht. unfold soc_body, np_get. rewrite Hu, Hp. simpl.
  rewrite np_set_lt by done. simpl.
  rewrite list_lookup_insert_eq by done. simpl.
  rewrite np_set_lt by (by rewrite length_insert).
  by rewrite list_insert_insert_eq.
Qed.

Lemma soc_body_inv S u SOC t SOC' :
  soc_body S u SOC t = Some SOC' ->
  exists u_t prev, u !! t = Some u_t /\ SOC !! (t - 1)%nat = Some prev /\
    (t < length SOC)%nat /\
    SOC' = <[t := np_clip (prev + soc_delta S u_t) 0.1 0.9]> SOC.
Proof.
  intros H.
  destruct (u !! t) as [u_t|] eqn:Hu;
    [|by unfold soc_body, np_get in H; rewrite Hu in H].
  destruct (SOC !! (t - 1)%nat) as [prev|] eqn:Hp;
    [|by unfold soc_body, np_get in H; rewrite Hu, Hp in H].
  destruct (decide (t < length SOC)%nat) as [Ht|Ht].
  - rewrite (soc_body_Some S u SOC t u_t prev) in H by done.
    exists u_t, prev. naive_solver.
  - unfold soc_body, np_get, np_set in H. rewrite Hu, Hp in H. simpl in H.
    by rewrite decide_False in H.
Qed.

(** ** Loops *)

(** Invariant rule for a [for] loop over [range(a, a+n)]: the loop returns
    when every turn does, and the invariant is carried to the end. *)
Lemma for_each_seq_total {St} (body : St -> nat -> option St)
    (P : nat -> St -> Prop) n : forall a st,
  P a st ->
  (forall t s, (a <= t < a + n)%nat -> P t s ->
     exists s', body s t = Some s' /\ P (Datatypes.S t) s') ->
  exists st', for_each body (seq a n) st = Some st' /\ P (a + n)%nat st'.
Proof.
  induction n as [|n IH]; intros a st HP Hstep; simpl.
  - exists st. by rewrite Nat.add_0_r.
  - destruct (Hstep a st) as (s' & -> & HP'); [lia|done|]. simpl.
    destruct (IH (Datatypes.S a) s' HP') as (st' & -> & Hend).
    + intros t s Ht. apply Hstep. lia.
    + exists st'. by rewrite <- Nat.add_succ_comm.
Qed.

(** The partial-correctness form: whatever the loop returns satisfies the
    invariant. *)
Lemma for_each_seq_inv {St} (body : St -> nat -> option St)
    (P : nat -> St -> Prop) n : forall a st st',
  P a st ->
  (forall t s s', (a <= t < a + n)%nat -> P t s -> body s t = Some s' ->
     P (Datatypes.S t) s') ->
  for_each body (seq a n) st = Some st' -> P (a + n)%nat st'.
Proof.
  induction n as [|n IH]; intros a st st' HP Hstep; simpl.
  - intros [= <-]. by rewrite Nat.add_0_r.
  - destruct (body st a) as [s'|] eqn:Hb; [|done]. simpl. intros Hrest.
    rewrite <- Nat.add_succ_comm. eapply IH; [|  |done].
    + eapply Hstep; [|done|done]. lia.
    + intros t s s'' Ht. apply Hstep. lia.
Qed.

Lemma for_each_ext {A St} (body1 body2 : St -> A -> option St) xs : forall st,
  (forall x s, x ∈ xs -> body1 s x = body2 s x) ->
  for_each body1 xs st = for_each body2 xs st.
Proof.
  induction xs as [|x xs IH]; intros st Hext; simpl; [done|].
  rewrite Hext by set_solver.
  destruct (body2 st x); simpl; [|done]. apply IH. intros. apply Hext. set_solver.
Qed.

(** ** Bounds of the trace (C7) *)

Lemma soc_inv_step S u hours t SOC SOC' :
  (1 <= t)%nat -> soc_inv hours t SOC -> soc_body S u SOC t = Some SOC' ->
  soc_inv hours (Datatypes.S t) SOC'.
Proof.
  intros Ht (Hlen & H0 & Hok) Hb.
  apply soc_body_inv in Hb as (u_t & prev & _ & _ & Hlt & ->).
  split; [by rewrite length_insert|]. split.
  - rewrite list_lookup_insert_ne by lia. done.
  - intros i x Hi. destruct (decide (i = t)) as [->|Hne].
    + rewrite list_lookup_insert_eq by done. intros [= <-].
      apply np_clip_bounds. lra.
    + rewrite list_lookup_insert_ne by done. apply Hok. lia.
Qed.

Lemma soc_inv_init hours :
  (1 <= hours)%nat -> soc_inv hours 1 (<[0%nat := 0.5]> (replicate hours 0)).
Proof.
  intros Hh. split; [rewrite length_insert, length_replicate; done|].
  assert (0 < length (replicate hours 0%R))%nat by (rewrite length_replicate; lia).
  split; [by rewrite list_lookup_insert_eq|].
  intros i x Hi. assert (i = 0%nat) as -> by lia.
  rewrite list_lookup_insert_eq by done. intros [= <-]. unfold soc_ok. lra.
Qed.



(** ** Dependence of the trace on the capacity and on [u_0] (C10) *)

Lemma soc_delta_pos (S x : R) :
  0 < S -> soc_delta S x = if decide (x < 0) then - x * 0.95 else - x / 0.95.
Proof.
  intros HS. unfold soc_delta.
  destruct (decide (x * S < 0)), (decide (x < 0)); try nra; field; lra.
Qed.

Lemma soc_delta_neg (S x : R) :
  S < 0 -> soc_delta S x = if decide (0 < x) then - x * 0.95 else - x / 0.95.
Proof.
  intros HS. unfold soc_delta.
  destruct (decide (x * S < 0)), (decide (0 < x)); try nra; field; lra.
Qed.

Lemma soc_delta_same_sign (S1 S2 x : R) :
  0 < S1 * S2 -> soc_delta S1 x = soc_delta S2 x.
Proof.
  intros H. destruct (Rlt_le_dec 0 S1) as [H1|H1].
  - assert (0 < S2) by (destruct (Rlt_le_dec 0 S2); [done|exfalso; nra]).
    by rewrite !soc_delta_pos.
  - assert (S2 < 0) by (destruct (Rlt_le_dec S2 0); [done|exfalso; nra]).
    assert (S1 < 0) by (destruct (Rlt_le_dec S1 0); [done|exfalso; nra]).
    by rewrite !soc_delta_neg.
Qed.

Lemma soc_body_unfold S u SOC t :
  soc_body S u SOC t =
  (u_t ← u !! t; prev ← SOC !! (t - 1)%nat;
   SOC1 ← np_set SOC t (prev + soc_delta S u_t);
   cur ← SOC1 !! t; np_set SOC1 t (np_clip cur 0.1 0.9)).
Proof. reflexivity. Qed.

Lemma soc_body_same_sign S1 S2 u1 u2 SOC t :
  0 < S1 * S2 -> u1 !! t = u2 !! t ->
  soc_body S1 u1 SOC t = soc_body S2 u2 SOC t.
Proof.
  intros HS Hu. rewrite !soc_body_unfold, Hu.
  destruct (u2 !! t) as [u_t|]; simpl; [|done].
  by rewrite (soc_delta_same_sign S1 S2).
Qed.

(** The two traces at capacities 1 and -1 with the same dispatch fractions. *)
Lemma calculate_soc_capacity_1 :
  calculate_soc [1; 0; 0.1] 2 = Some [0.5; 0.5 - 0.1 / 0.95].
Proof.
  unfold calculate_soc. simpl. do 3 f_equal. Rcases.
Qed.

Lemma calculate_soc_capacity_m1 :
  calculate_soc [-1; 0; 0.1] 2 = Some [0.5; 0.5 - 0.1 * 0.95].
Proof.
  unfold calculate_soc. simpl. do 3 f_equal. Rcases.
Qed.

(** The sign of the capacity selects the branch of the update: capacities
    1 and -1 are both nonzero and the dispatch fractions are the same, yet
    the traces differ at hour 1, in exact arithmetic already. *)
Lemma calculate_soc_sign_of_capacity :
  ~ (forall (hours : nat) (S1 S2 : R) (u1 u2 : list R),
       (1 <= hours)%nat -> S1 <> 0 -> S2 <> 0 ->
       (forall t, (1 <= t < hours)%nat -> u1 !! t = u2 !! t) ->
       calculate_soc (S1 :: u1) hours = calculate_soc (S2 :: u2) hours).
Proof.
  intros H. specialize (H 2%nat 1 (-1) [0; 0.1] [0; 0.1]).
  rewrite calculate_soc_capacity_1, calculate_soc_capacity_m1 in H.
  assert (0.5 - 0.1 / 0.95 = 0.5 - 0.1 * 0.95) by
    (injection H; [done | lia | lra | lra | done]).
  lra.
Qed.

(** In exact arithmetic two capacities of the same sign give the same
    trace: the capacity cancels in the quotients.  The float64 arithmetic
    of the source does not cancel it: there the traces of two capacities
    differ by the rounding. *)
Lemma calculate_soc_same_sign_capacity (hours : nat) (S1 S2 : R)
    (u1 u2 : list R) :
  0 < S1 * S2 ->
  (forall t, (1 <= t < hours)%nat -> u1 !! t = u2 !! t) ->
  calculate_soc (S1 :: u1) hours = calculate_soc (S2 :: u2) hours.
Proof.
  intros HS Hu. unfold calculate_soc. simpl.
  destruct (np_set (replicate hours 0) 0 0.5) as [SOC|]; simpl; [|done].
  rewrite !drop_0. apply for_each_ext. intros t s Ht.
  apply soc_body_same_sign; [done|]. apply Hu.
  unfold py_range in Ht. apply elem_of_seq in Ht. lia.
Qed.

(** C10 as stated fails, and for capacities within [1, 2000] already: with
    the same dispatch fractions ([u_1 = 0.2], within [-0.5, 0.5]) the
    capacities 1 and 3 give traces that differ at hour 1.  The product
    [u[t] * S] and the quotient by [0.95 * S] are rounded, and the rounding
    depends on the capacity. *)
Lemma calculate_soc_capacity_rounding_counterexample :
  calculate_soc_f64 [1; 0; 0.2]%float 2
  = Some [0.5; 0.28947368421052633]%float /\
  calculate_soc_f64 [3; 0; 0.2]%float 2
  = Some [0.5; 0.28947368421052627]%float /\
  calculate_soc_f64 [1; 0; 0.2]%float 2 <> calculate_soc_f64 [3; 0; 0.2]%float 2.
Proof.
  split; [by vm_compute|]. split; [by vm_compute|]. intros H.
  apply (f_equal (fun r => match r with
                           | Some [_; x] => (x =? 0.28947368421052633)%float
                           | _ => false
                           end)) in H.
  vm_compute in H. discriminate H.
Qed.

Lemma soc_body_f64_reads S u1 u2 SOC t :
  u1 !! t = u2 !! t -> soc_body_f64 S u1 SOC t = soc_body_f64 S u2 SOC t.
Proof. intros Hu. unfold soc_body_f64, np_get. by rewrite Hu. Qed.

Lemma soc_body_reads S u1 u2 SOC t :
  u1 !! t = u2 !! t -> soc_body S u1 SOC t = soc_body S u2 SOC t.
Proof. intros Hu. unfold soc_body, np_get. by rewrite Hu. Qed.

(** C10, amended: for every [hours] and two solutions with the same
    capacity whose dispatch fractions agree at indices 1 to [hours - 1],
    [calculate_soc] gives the same result, bit for bit in binary64 and in
    exact arithmetic: the first fraction [u_0] and the entries from index
    [hours] on are never read.  The capacity is not left out: the result
    depends on it (by its sign, and by rounding for capacities of one
    sign). *)
Theorem calculate_soc_first_fraction (hours : nat) (S : float)
    (u1 u2 : list float) (S' : R) (v1 v2 : list R) :
  (forall t, (1 <= t < hours)%nat -> u1 !! t = u2 !! t) ->
  (forall t, (1 <= t < hours)%nat -> v1 !! t = v2 !! t) ->
  calculate_soc_f64 (S :: u1) hours = calculate_soc_f64 (S :: u2) hours /\
  calculate_soc (S' :: v1) hours = calculate_soc (S' :: v2) hours.
Proof.
  intros Hu Hv. split.
  - unfold calculate_soc_f64. simpl.
    destruct (np_set (replicate hours 0%float) 0 0.5%float) as [SOC|]; simpl;
      [|done].
    rewrite !drop_0. apply for_each_ext. intros t s Ht.
    apply soc_body_f64_reads, Hu.
    unfold py_range in Ht. apply elem_of_seq in Ht. lia.
  - unfold calculate_soc. simpl.
    destruct (np_set (replicate hours 0) 0 0.5) as [SOC|]; simpl; [|done].
    rewrite !drop_0. apply for_each_ext. intros t s Ht.
    apply soc_body_reads, Hv.
    unfold py_range in Ht. apply elem_of_seq in Ht. lia.
Qed.

Lemma calculate_soc_first_fraction_witness :
  calculate_soc_f64 [100; 0.3; 0.2; -0.3]%float 3
  = calculate_soc_f64 [100; -0.5; 0.2; -0.3; 0.4]%float 3 /\
  calculate_soc [100; 0.3; 0.2; -0.3] 3
  = calculate_soc [100; -0.5; 0.2; -0.3; 0.4] 3.
Proof.
  apply (calculate_soc_first_fraction 3 100%float [0.3; 0.2; -0.3]%float
           [-0.5; 0.2; -0.3; 0.4]%float 100 [0.3; 0.2; -0.3]
           [-0.5; 0.2; -0.3; 0.4]);
    intros [|[|[|t]]] Ht; solve [reflexivity | lia].
Defined.

(** ** The hourly loop of [energy_cost] *)

Lemma for_each_keep_Some {A St} (body : St -> A -> option St) xs : forall st st',
  for_each body xs st = Some st' -> for_each_keep body xs st = (st', true).
Proof.
  induction xs as [|x xs IH]; intros st st'; simpl.
  - by intros [= ->].
  - destruct (body st x); simpl; [apply IH|done].
Qed.

Lemma hour_body_Some self S u st t_i decay u_t demand d_t gen g_t e_t
    available a_t price p_t :
  SOC_capacity_decay self !! t_i = Some decay -> u !! t_i = Some u_t ->
  P_demand self = Some demand -> demand !! t_i = Some d_t ->
  P_gen self = Some gen -> gen !! t_i = Some g_t ->
  emergency_event self !! t_i = Some e_t ->
  grid_available self = Some available -> available !! t_i = Some a_t ->
  grid_price self = Some price -> price !! t_i = Some p_t ->
  hour_body self S u st t_i
  = Some (hour_update self S decay u_t d_t g_t e_t a_t p_t st t_i).
Proof.
  intros Hdecay Hu Hdemand Hd Hgen Hg He Havail Ha Hprice Hp.
  unfold hour_body, np_get.
  rewrite Hdecay, Hu, Hdemand, Hgen, Havail, Hprice, He. simpl.
  rewrite Hd, Hg, Ha, Hp. simpl.
  unfold hour_update. by destruct (decide (_ > 0)).
Qed.

(** ** Evaluation on a steady scenario with an idle battery *)

Lemma decay_lookup population iters t :
  (t < 24)%nat ->
  SOC_capacity_decay (init 24 population iters) !! t
  = Some (1.0 - 0.005 * INR t).
Proof.
  intros Ht. unfold init. cbn [SOC_capacity_decay]. unfold py_range.
  rewrite list_lookup_fmap, lookup_seq_lt by lia. done.
Qed.

Lemma last3_replicate (n : nat) (x : R) :
  (3 <= n)%nat -> last3 (replicate n x) = replicate 3 x.
Proof.
  intros Hn. unfold last3. rewrite length_replicate, drop_replicate.
  f_equal. lia.
Qed.

Lemma np_mean_replicate3 (x : R) : np_mean (replicate 3 x) = x.
Proof. unfold np_mean, py_sum. simpl. lra. Qed.

Lemma hour_update_steady self S decay g d p t :
  charge_eff self = 0.95 -> discharge_eff self = 0.95 ->
  SOC_min self = 0.1 -> SOC_max self = 0.9 ->
  hour_update self S decay 0 d g 0 1 p (steady_state S g d p t) t
  = steady_state S g d p (Datatypes.S t).
Proof.
  intros Hc Hd Hmin Hmax. unfold hour_update, steady_state.
  cbn [total_cost SOC SOC_history self_temperature].
  rewrite Hc, Hd, Hmin, Hmax.
  assert (0 * (S * decay) = 0) as -> by ring.
  rewrite Rabs_R0, Ropp_0, Rminus_0_r.
  assert (0 / (S * decay) = 0) as -> by (unfold Rdiv; ring).
  assert (0 * 0.95 / (S * decay) = 0) as -> by (unfold Rdiv; ring).
  assert (0 / (0.95 * (S * decay)) = 0) as -> by (unfold Rdiv; ring).
  rewrite Rabs_R0.
  assert (py_pow 0 1.5 = 0) as -> by (unfold py_pow; by rewrite decide_True by lra).
  assert (np_clip (0.5 + (if decide (0 < 0) then 0 else 0)) 0.1 0.9 = 0.5) as ->
    by Rcases.
  rewrite <- replicate_S_end.
  rewrite (decide_False (P := (0 ≠ 0)%Z)) by lia.
  rewrite (decide_False (P := (1%Z = 0%Z ∧ _))) by lia.
  rewrite (decide_False (P := (25 + 0 / 0.05 > 45))) by lra.
  assert (forall c : R,
    (if decide (3 <= t)%nat
     then if decide (Rabs (0.5 - np_mean (last3 (replicate (Datatypes.S t) 0.5))) > 0.2)
          then c + 1e4 else c
     else c) = c) as ->.
  { intros c. case_decide; [|done].
    rewrite last3_replicate, np_mean_replicate3 by lia.
    rewrite decide_False; [done|]. rewrite Rminus_diag, Rabs_R0. lra. }
  f_equal; [|lra]. rewrite S_INR. unfold steady_hour_cost. lra.
Qed.

Lemma hour_body_steady population iters S g d p t :
  (t < 24)%nat ->
  hour_body (set_scenario (steady_scenario g d p) (init 24 population iters))
    S (replicate 24 0) (steady_state S g d p t) t
  = Some (steady_state S g d p (Datatypes.S t)).
Proof.
  intros Ht.
  rewrite (hour_body_Some _ S _ _ t (1.0 - 0.005 * INR t) 0
             (replicate 24 d) d (replicate 24 g) g 0%Z
             (replicate 24 1%Z) 1%Z (replicate 24 p) p);
    try done; try (by apply lookup_replicate_2).
  - by rewrite hour_update_steady.
  - by apply decay_lookup.
Qed.

Lemma hours_loop_steady population iters S g d p :
  for_each_keep
    (hour_body (set_scenario (steady_scenario g d p) (init 24 population iters))
       S (replicate 24 0))
    (py_range 0 24) (steady_state S g d p 0)
  = (steady_state S g d p 24, true).
Proof.
  apply for_each_keep_Some. unfold py_range.
  destruct (for_each_seq_total
              (hour_body (set_scenario (steady_scenario g d p)
                            (init 24 population iters)) S (replicate 24 0))
              (fun k st => st = steady_state S g d p k) (24 - 0) 0
              (steady_state S g d p 0)) as (st' & Hrun & ->); [done| |done].
  intros t s Ht ->. eexists. split; [|done]. apply hour_body_steady. lia.
Qed.

Lemma py_sum_replicate24 (x : R) : py_sum (replicate 24 x) = 24 * x.
Proof. unfold py_sum. simpl. lra. Qed.

(** The cost of an idle battery of capacity [S] on a steady scenario (the
    capacity and the demand are not zero: they are divisors). *)
Lemma energy_cost_steady population iters S g d p :
  S <> 0 -> d <> 0 ->
  (energy_cost (set_scenario (steady_scenario g d p) (init 24 population iters))
     (idle_solution S)).2
  = Some ((if decide (24 * g / (24 * d) < 0.85)
           then 500 * S + 24 * steady_hour_cost g d p
                + (0.85 - 24 * g / (24 * d)) * 1e4
           else 500 * S + 24 * steady_hour_cost g d p)
          + 100 * Rabs (sin (S * 0.01))).
Proof.
  intros _ _.
  unfold energy_cost, idle_solution. cbn [np_get lookup list_lookup drop].
  cbn [hours set_scenario init capital_cost].
  replace {| total_cost := 500 * S; SOC := 0.5; SOC_history := [];
             self_temperature := 25 |}
    with (steady_state S g d p 0)
    by (unfold steady_state; f_equal; simpl; lra).
  rewrite hours_loop_steady. cbn [snd].
  unfold cost_tail. cbn [P_gen P_demand set_scenario steady_scenario sc_P_gen
    sc_P_demand mbind option_bind].
  rewrite !py_sum_replicate24, drop_0.
  assert (py_sum ((fun x => x * S) <$> replicate 24 0) = 0) as ->
    by (unfold py_sum; simpl; lra).
  rewrite Rplus_0_r. unfold steady_state. cbn [total_cost].
  replace (INR 24) with 24 by (simpl; lra). done.
Qed.

(** ** The idle example (C2) *)

(** C2 as stated fails: the closed form of the spec leaves out the
    efficiency penalty, which is not zero on this input. *)
Lemma energy_cost_idle_example_counterexample :
  (energy_cost (set_scenario (steady_scenario 0 80 0.2) (init 24 30 50))
     (idle_solution 100)).2
  ≠ Some (500 * 100 + py_sum (replicate 24 (80 * 0.2))
          + py_sum (replicate 24 (80 * 0.487 * 2)) + 100 * Rabs (sin 1.0)).
Proof.
  rewrite energy_cost_steady, !py_sum_replicate24 by lra.
  rewrite decide_True by lra. unfold steady_hour_cost.
  rewrite decide_True by lra.
  replace (100 * 0.01) with 1.0 by lra.
  intros [= H]. lra.
Qed.

(** C2, amended: on the idle example the cost is the capital cost, the grid
    and carbon cost of importing 80 in each of the 24 hours, the efficiency
    penalty (0.85 - 0) * 1e4 = 8500 (the efficiency is 0, since nothing is
    generated or discharged), and the periodic term; degradation, thermal
    and SOC-stability terms add nothing, and the temperature ends at 25. *)
Theorem energy_cost_idle_example :
  energy_cost (set_scenario (steady_scenario 0 80 0.2) (init 24 30 50))
    (idle_solution 100)
  = (set_temperature 25
       (set_scenario (steady_scenario 0 80 0.2) (init 24 30 50)),
     Some (500 * 100 + py_sum (replicate 24 (80 * 0.2))
           + py_sum (replicate 24 (80 * 0.487 * 2)) + 8500
           + 100 * Rabs (sin 1.0))).
Proof.
  apply injective_projections.
  - unfold energy_cost, idle_solution. cbn [np_get lookup list_lookup drop].
    cbn [hours set_scenario init capital_cost].
    replace {| total_cost := 500 * 100; SOC := 0.5; SOC_history := [];
               self_temperature := 25 |}
      with (steady_state 100 0 80 0.2 0)
      by (unfold steady_state; f_equal; simpl; lra).
    by rewrite hours_loop_steady.
  - rewrite energy_cost_steady, !py_sum_replicate24 by lra. cbn [snd].
    rewrite decide_True by lra. unfold steady_hour_cost.
    rewrite decide_True by lra.
    replace (100 * 0.01) with 1.0 by lra.
    f_equal. lra.
Qed.

(** ** Sign of the cost (C1) *)











(** ** Repeated evaluation (C4) *)

Lemma set_temperature_idem (self : RenewableOptimizer) :
  set_temperature (temperature self) self = self.
Proof. by destruct self. Qed.

(** [energy_cost] never reads [self.temperature]: it assigns 25 first. *)
Lemma energy_cost_set_temperature (T : R) (self : RenewableOptimizer)
    (solution : list R) :
  (energy_cost (set_temperature T self) solution).2
  = (energy_cost self solution).2.
Proof.
  unfold energy_cost. destruct (np_get solution 0); [|done].
  change (hour_body (set_temperature T self)) with (hour_body self).
  change (hours (set_temperature T self)) with (hours self).
  change (capital_cost (set_temperature T self)) with (capital_cost self).
  by destruct (for_each_keep _ _ _).
Qed.

(** The only attribute [energy_cost] assigns is [temperature]. *)
Lemma energy_cost_frame (self : RenewableOptimizer) (solution : list R) :
  exists T, (energy_cost self solution).1 = set_temperature T self.
Proof.
  unfold energy_cost. destruct (np_get solution 0).
  - destruct (for_each_keep _ _ _) as [st ok]. by eexists.
  - exists (temperature self). by rewrite set_temperature_idem.
Qed.

(** C4: a second call of [energy_cost] on the same instance with the same
    solution returns the same result as the first (the same cost, or an
    exception again); the first call changed nothing but [temperature], and
    the value of [temperature] on entry has no effect on the result. *)
Theorem energy_cost_idempotent (self : RenewableOptimizer) (solution : list R) :
  (energy_cost (energy_cost self solution).1 solution).2
  = (energy_cost self solution).2 /\
  (exists T, (energy_cost self solution).1 = set_temperature T self) /\
  (forall T, (energy_cost (set_temperature T self) solution).2
             = (energy_cost self solution).2).
Proof.
  split; [|split].
  - destruct (energy_cost_frame self solution) as [T ->].
    apply energy_cost_set_temperature.
  - apply energy_cost_frame.
  - intros T. apply energy_cost_set_temperature.
Qed.

(** ** Scenario generation *)

Lemma np_broadcast_same_length f xs ys :
  length xs = length ys -> np_broadcast f xs ys = Some (zip_with f xs ys).
Proof. intros. unfold np_broadcast. by rewrite decide_True. Qed.

Lemma mapM_np_get (a : list R) (idx : list nat) :
  Forall (fun i => (i < length a)%nat) idx ->
  mapM (np_get a) idx = Some ((fun i => default 0 (a !! i)) <$> idx).
Proof.
  intros Hidx. apply mapM_Some. apply Forall2_fmap_r, Forall_Forall2_diag.
  eapply Forall_impl; [exact Hidx|]. intros i Hi. unfold np_get. simpl.
  destruct (lookup_lt_is_Some_2 a i Hi) as [x ->]. done.
Qed.

Lemma store_all_length ivs : forall a, length (store_all a ivs) = length a.
Proof.
  induction ivs as [|iv ivs IH]; intros a; simpl; [done|].
  unfold store_all in *. simpl. by rewrite IH, length_insert.
Qed.

Lemma store_all_Forall (P : R -> Prop) ivs : forall a,
  Forall P a -> Forall (fun iv => P iv.2) ivs -> Forall P (store_all a ivs).
Proof.
  induction ivs as [|iv ivs IH]; intros a Ha Hivs; simpl; [done|].
  apply Forall_cons in Hivs as [Hiv Hivs]. unfold store_all in *. simpl.
  apply IH; [|done]. by apply Forall_insert.
Qed.

Lemma np_imul_at_Some (a : list R) (idx : list nat) (f : list R) :
  Forall (fun i => (i < length a)%nat) idx -> length idx = length f ->
  np_imul_at a idx f
  = Some (store_all a
            (zip idx (zip_with Rmult ((fun i => default 0 (a !! i)) <$> idx) f))).
Proof.
  intros Hidx Hlen. unfold np_imul_at. rewrite mapM_np_get by done. simpl.
  unfold np_mul. rewrite np_broadcast_same_length by (by rewrite length_fmap).
  simpl. rewrite decide_True; [done|].
  rewrite length_zip_with, length_fmap. lia.
Qed.

Section load_data.
Context `{NumpyRandom}.

(** The shapes of the draws. *)
Lemma draw_all_shape (g : rng_state) :
  let d := draw_all g in
  length (dr_z d) = 24%nat /\ length (dr_solar_failure d) = 24%nat /\
  length (dr_wind_failure d) = 24%nat /\
  length (dr_grid_available d) = 24%nat /\
  length (dr_emergency_event d) = 24%nat /\ length (dr_noise d) = 24%nat /\
  length (dr_spike_hours d) = 4%nat /\ length (dr_factors d) = 4%nat /\
  Forall (fun i => (i < 24)%nat) (dr_spike_hours d) /\
  Forall (fun x => 3 <= x <= 5) (dr_factors d).
Proof.
  unfold draw_all.
  pose proof (randn_length 24 g) as Hz.
  destruct (np_random_randn 24 g) as [z g1].
  pose proof (choice_length [0; 1]%Z 24 [0.9; 0.1] g1) as Hsf.
  destruct (np_random_choice _ _ _ g1) as [sf g2].
  pose proof (choice_length [0; 1]%Z 24 [0.85; 0.15] g2) as Hwf.
  destruct (np_random_choice _ _ _ g2) as [wf g3].
  pose proof (choice_length [0; 1]%Z 24 [0.2; 0.8] g3) as Hga.
  destruct (np_random_choice _ _ _ g3) as [ga g4].
  pose proof (choice_length [0; 1]%Z 24 [0.9; 0.1] g4) as Hee.
  destruct (np_random_choice _ _ _ g4) as [ee g5].
  pose proof (normal_length 1 0.15 24 g5) as Hno.
  destruct (np_random_normal _ _ _ g5) as [noise g6].
  pose proof (choice_distinct_length 24 4 g6) as Hsl.
  pose proof (choice_distinct_bound 24 4 g6) as Hsb.
  destruct (np_random_choice_distinct _ _ g6) as [spikes g7].
  pose proof (uniform_length 3 5 4 g7) as Hfl.
  pose proof (uniform_range 3 5 4 g7) as Hfr.
  destruct (np_random_uniform _ _ _ g7) as [factors g8].
  simpl in *. repeat split; auto; try lia. apply Hfr. lra.
Qed.

Lemma load_data_24 (self : RenewableOptimizer) (trial_num : Z)
    (g g0 : rng_state) :
  hours self = 24%nat -> np_random_seed trial_num = Some g0 ->
  load_data self trial_num g
  = Some (set_scenario (scenario_from (data_variation self) (draw_all g0)) self,
          dr_state (draw_all g0)).
Proof.
  intros Hh Hseed. pose proof (draw_all_shape g0) as Hshape.
  unfold load_data. rewrite Hseed, Hh. cbn [mbind option_bind].
  unfold scenario_from, generation, floored_price, variation_of.
  unfold draw_all in *.
  destruct (np_random_randn 24 g0) as [z g1].
  destruct (np_random_choice _ _ _ g1) as [sf g2].
  destruct (np_random_choice _ _ _ g2) as [wf g3].
  destruct (np_random_choice _ _ _ g3) as [ga g4].
  destruct (np_random_choice _ _ _ g4) as [ee g5].
  destruct (np_random_normal _ _ _ g5) as [noise g6].
  destruct (np_random_choice_distinct _ _ g6) as [spikes g7].
  destruct (np_random_uniform _ _ _ g7) as [factors g8].
  cbn [dr_z dr_solar_failure dr_wind_failure dr_grid_available
       dr_emergency_event dr_noise dr_spike_hours dr_factors dr_state] in *.
  destruct Hshape as (Hz & Hsf & Hwf & Hga & Hee & Hno & Hsl & Hfl & Hsb & _).
  assert (length (np_arange 24) = 24%nat) as Ht by done.
  unfold np_mul, np_add.
  repeat (rewrite np_broadcast_same_length
            by (rewrite ?length_fmap, ?length_zip_with, ?length_fmap; lia);
          cbn [mbind option_bind]).
  rewrite np_imul_at_Some; [done| |lia].
  eapply Forall_impl; [exact Hsb|]. intros i Hi. cbv beta in *.
  rewrite ?length_fmap, ?length_zip_with, ?length_fmap. lia.
Qed.

End load_data.

(** *** The laws of the generator with fixed draws *)

Lemma fixed_seed_range s : is_Some (fixed_seed s) <-> (0 <= s < 2 ^ 32)%Z.
Proof.
  unfold fixed_seed. case_decide; split; intros Hs; done.
Qed.

Lemma fixed_choice_length pick a n :
  a ≠ [] -> length (fixed_choice pick a n) = n.
Proof.
  intros Ha. unfold fixed_choice.
  destruct (lookup_lt_is_Some_2 a (pick `min` (length a - 1))) as [v ->].
  - destruct a; [done|]. simpl. lia.
  - apply length_replicate.
Qed.

Lemma fixed_choice_elem pick a n : Forall (fun x => x ∈ a) (fixed_choice pick a n).
Proof.
  unfold fixed_choice. destruct (a !! _) as [v|] eqn:Hv; [|done].
  apply Forall_replicate. by eapply list_elem_of_lookup_2.
Qed.

Lemma fixed_distinct_length a k :
  (k <= a)%nat -> length (fixed_distinct a k) = k.
Proof. intros. unfold fixed_distinct. rewrite decide_True by done. apply length_seq. Qed.

Lemma fixed_distinct_bound a k :
  Forall (fun i => (i < a)%nat) (fixed_distinct a k).
Proof.
  unfold fixed_distinct. case_decide; [|done].
  apply Forall_forall. intros i Hi. apply elem_of_seq in Hi. lia.
Qed.

Lemma fixed_distinct_NoDup a k : NoDup (fixed_distinct a k).
Proof.
  unfold fixed_distinct. case_decide; [apply NoDup_seq|apply NoDup_nil_2].
Qed.

Lemma fixed_uniform_range (lo hi : R) (n : nat) :
  lo <= hi -> Forall (fun x => lo <= x <= hi) (replicate n lo).
Proof. intros. apply Forall_replicate. lra. Qed.

Definition fixed_random (z : R) (pick : nat) (x : R) : NumpyRandom := {|
  rng_state := unit;
  np_random_seed := fixed_seed;
  np_random_randn := fun n g => (replicate n z, g);
  np_random_choice := fun a n p g => (fixed_choice pick a n, g);
  np_random_normal := fun mu sigma n g => (replicate n (mu + sigma * x), g);
  np_random_choice_distinct := fun a k g => (fixed_distinct a k, g);
  np_random_uniform := fun lo hi n g => (replicate n lo, g);
  seed_range := fixed_seed_range;
  randn_length := fun n g => length_replicate n z;
  choice_length := fun a n p g => fixed_choice_length pick a n;
  choice_elem := fun a n p g => fixed_choice_elem pick a n;
  normal_length := fun mu sigma n g => length_replicate n (mu + sigma * x);
  choice_distinct_length := fun a k g => fixed_distinct_length a k;
  choice_distinct_bound := fun a k g => fixed_distinct_bound a k;
  choice_distinct_NoDup := fun a k g => fixed_distinct_NoDup a k;
  uniform_length := fun lo hi n g => length_replicate n lo;
  uniform_range := fun lo hi n g => fixed_uniform_range lo hi n
|}.

Lemma draw_all_fixed (z : R) (pick : nat) (x : R) :
  @draw_all (fixed_random z pick x) () =
  @Build_Draws (fixed_random z pick x) (replicate 24 z)
    (fixed_choice pick [0; 1]%Z 24) (fixed_choice pick [0; 1]%Z 24)
    (fixed_choice pick [0; 1]%Z 24) (fixed_choice pick [0; 1]%Z 24)
    (replicate 24 (1 + 0.15 * x)) (fixed_distinct 24 4) (replicate 4 3) ().
Proof. reflexivity. Qed.

Lemma get_set_scenario (sc : Scenario) (self : RenewableOptimizer) :
  get_scenario (set_scenario sc self) = Some sc.
Proof. by destruct sc. Qed.

Lemma np_arange_lookup (n t : nat) :
  (t < n)%nat -> np_arange n !! t = Some (Z.of_nat t).
Proof.
  intros Ht. unfold np_arange. by rewrite list_lookup_fmap, lookup_seq_lt.
Qed.

Lemma Forall_zip_snd {A B} (P : B -> Prop) (l : list A) : forall k : list B,
  Forall P k -> Forall (fun ab => P ab.2) (zip l k).
Proof.
  induction l as [|a l IH]; intros k Hk; [done|].
  destruct Hk as [|b k Hb Hk]; [done|]. simpl. constructor; [done|by apply IH].
Qed.

Lemma Forall_zip_with {A B C} (P : A -> Prop) (Q : B -> Prop) (T : C -> Prop)
    (f : A -> B -> C) (l : list A) : forall k : list B,
  (forall a b, P a -> Q b -> T (f a b)) ->
  Forall P l -> Forall Q k -> Forall T (zip_with f l k).
Proof.
  induction l as [|a l IH]; intros k Hf Hl Hk; [done|].
  apply Forall_cons in Hl as [Ha Hl].
  destruct Hk as [|b k Hb Hk]; [done|]. simpl.
  constructor; [by apply Hf|by apply IH].
Qed.

Section scenario_properties.
Context `{NumpyRandom}.

Lemma generation_lookup base dv (d : Draws) flags t v f :
  (t < 24)%nat -> variation_of dv d !! t = Some v -> flags !! t = Some f ->
  generation base dv d flags !! t
  = Some (np_clip_lo (base (Z.of_nat t) * v * IZR f) 0).
Proof.
  intros Ht Hv Hf. unfold generation.
  rewrite list_lookup_fmap, !lookup_zip_with, !list_lookup_fmap.
  by rewrite np_arange_lookup, Hv, Hf.
Qed.

Lemma generation_nonneg base dv (d : Draws) flags :
  Forall (fun x => 0 <= x) (generation base dv d flags).
Proof.
  unfold generation. apply Forall_fmap, Forall_true. intros x. simpl.
  unfold np_clip_lo. apply Rmax_r.
Qed.

Lemma generation_length base dv (d : Draws) flags :
  length (dr_z d) = 24%nat -> length flags = 24%nat ->
  length (generation base dv d flags) = 24%nat.
Proof.
  intros Hz Hf. unfold generation, variation_of.
  rewrite length_fmap, !length_zip_with, !length_fmap, Hz, Hf. done.
Qed.

Lemma demand_lookup dv (d : Draws) t v n :
  (t < 24)%nat -> variation_of dv d !! t = Some v -> dr_noise d !! t = Some n ->
  sc_P_demand (scenario_from dv d) !! t
  = Some (base_demand (Z.of_nat t) * v * n).
Proof.
  intros Ht Hv Hn. cbn [scenario_from sc_P_demand].
  rewrite !lookup_zip_with, !list_lookup_fmap.
  by rewrite np_arange_lookup, Hv, Hn.
Qed.

Lemma floored_price_floor dv (d : Draws) :
  Forall (fun p => 0.05 <= p) (floored_price dv d).
Proof.
  unfold floored_price. apply Forall_fmap, Forall_true. intros x. simpl.
  unfold np_clip_lo. apply Rmax_r.
Qed.

Lemma floored_price_length dv (d : Draws) :
  length (dr_z d) = 24%nat -> length (floored_price dv d) = 24%nat.
Proof.
  intros Hz. unfold floored_price, variation_of.
  rewrite length_fmap, !length_zip_with, !length_fmap, Hz. done.
Qed.

(** The price keeps its floor through the spikes: a spike multiplies a
    floored price by a factor of at least 3. *)
Lemma grid_price_floor dv (g : rng_state) :
  Forall (fun p => 0.05 <= p) (sc_grid_price (scenario_from dv (draw_all g))).
Proof.
  destruct (draw_all_shape g) as (Hz & _ & _ & _ & _ & _ & _ & _ & Hsb & Hfr).
  cbn [scenario_from sc_grid_price].
  apply store_all_Forall; [apply floored_price_floor|].
  apply Forall_zip_snd.
  apply (Forall_zip_with (fun p => 0.05 <= p) (fun x => 3 <= x <= 5)).
  - intros a b Ha Hb. nra.
  - apply Forall_fmap. eapply Forall_impl; [exact Hsb|].
    intros i Hi. simpl.
    destruct (lookup_lt_is_Some_2 (floored_price dv (draw_all g)) i)
      as [p Hp]; [rewrite floored_price_length; [done|exact Hz]|].
    rewrite Hp. simpl.
    by eapply (Forall_lookup_1 _ _ _ _ (floored_price_floor dv (draw_all g))).
  - exact Hfr.
Qed.

(** C6, amended: with [hours = 24] and a seed that [np.random.seed]
    accepts, [load_data] returns, the arrays of the scenario all have
    length 24, the solar and wind generation are nowhere negative and
    every price is at least 0.05 (so not negative).  Nothing is stated
    of the sign of the demand, which the code does not clip. *)
Theorem load_data_invariant (self : RenewableOptimizer) (trial_num : Z)
    (g : rng_state) :
  hours self = 24%nat -> (0 <= trial_num < 2 ^ 32)%Z ->
  exists self' g' sc,
    load_data self trial_num g = Some (self', g') /\
    get_scenario self' = Some sc /\
    (length (sc_P_solar sc) = 24%nat /\ length (sc_P_wind sc) = 24%nat /\
     length (sc_P_demand sc) = 24%nat /\ length (sc_grid_price sc) = 24%nat /\
     length (sc_solar_failure sc) = 24%nat /\
     length (sc_wind_failure sc) = 24%nat /\
     length (sc_grid_available sc) = 24%nat /\
     length (sc_emergency_event sc) = 24%nat) /\
    Forall (fun x => 0 <= x) (sc_P_solar sc) /\
    Forall (fun x => 0 <= x) (sc_P_wind sc) /\
    Forall (fun p => 0.05 <= p /\ 0 <= p) (sc_grid_price sc).
Proof.
  intros Hh Hseed. apply seed_range in Hseed as [g0 Hg0].
  exists (set_scenario (scenario_from (data_variation self) (draw_all g0)) self),
    (dr_state (draw_all g0)),
    (scenario_from (data_variation self) (draw_all g0)).
  split; [by apply load_data_24|]. split; [apply get_set_scenario|].
  destruct (draw_all_shape g0)
    as (Hz & Hsf & Hwf & Hga & Hee & Hno & Hsl & Hfl & Hsb & Hfr).
  split; [|split; [|split]].
  - cbn [scenario_from sc_P_solar sc_P_wind sc_P_demand sc_grid_price
         sc_solar_failure sc_wind_failure sc_grid_available
         sc_emergency_event].
    rewrite !generation_length, store_all_length, floored_price_length
      by done.
    unfold variation_of.
    rewrite !length_zip_with, !length_fmap, Hz, Hno. done.
  - apply generation_nonneg.
  - apply generation_nonneg.
  - eapply Forall_impl; [apply grid_price_floor|]. intros p Hp. simpl in *. lra.
Qed.

End scenario_properties.

Lemma load_data_invariant_witness :
  exists self' g' sc,
    @load_data (fixed_random 0 0 0) (init 24 30 50) 7 () = Some (self', g') /\
    get_scenario self' = Some sc /\
    (length (sc_P_solar sc) = 24%nat /\ length (sc_P_wind sc) = 24%nat /\
     length (sc_P_demand sc) = 24%nat /\ length (sc_grid_price sc) = 24%nat /\
     length (sc_solar_failure sc) = 24%nat /\
     length (sc_wind_failure sc) = 24%nat /\
     length (sc_grid_available sc) = 24%nat /\
     length (sc_emergency_event sc) = 24%nat) /\
    Forall (fun x => 0 <= x) (sc_P_solar sc) /\
    Forall (fun x => 0 <= x) (sc_P_wind sc) /\
    Forall (fun p => 0.05 <= p /\ 0 <= p) (sc_grid_price sc).
Proof.
  apply (@load_data_invariant (fixed_random 0 0 0) (init 24 30 50) 7 ());
    [reflexivity | lia].
Defined.

Lemma load_data_fixed (z : R) (pick : nat) (x : R) (self : RenewableOptimizer)
    (trial_num : Z) :
  hours self = 24%nat -> (0 <= trial_num < 2 ^ 32)%Z ->
  @load_data (fixed_random z pick x) self trial_num ()
  = Some (set_scenario
            (@scenario_from (fixed_random z pick x) (data_variation self)
               (@draw_all (fixed_random z pick x) ())) self, ()).
Proof.
  intros Hh Hs.
  rewrite (@load_data_24 (fixed_random z pick x) self trial_num () ()); try done.
  cbn [np_random_seed fixed_random]. unfold fixed_seed. by rewrite decide_True.
Qed.

Lemma sin_quarter_turn : sin (PI * IZR 6 / 12) = 1.
Proof. replace (PI * 6 / 12) with (PI / 2) by lra. apply sin_PI2. Qed.

(** C6 as stated fails: the demand is the base curve times two noise
    factors and is not clipped; when the demand-only factor is drawn
    negative ([normal(1, 0.15)] at [1 + 0.15 * (-7) = -0.05]) the demand of
    hour 0 is [110 * 1 * (-0.05) = -5.5]. *)
Lemma load_data_negative_demand_counterexample :
  exists self' g' sc,
    @load_data (fixed_random 0 0 (-7)) (init 24 30 50) 0 () = Some (self', g') /\
    get_scenario self' = Some sc /\
    sc_P_demand sc !! 0%nat = Some (-5.5) /\ -5.5 < 0.
Proof.
  eexists _, _, _. split; [by apply load_data_fixed|].
  split; [apply get_set_scenario|]. split; [|lra].
  rewrite (@demand_lookup (fixed_random 0 0 (-7)) _ _ 0 (1 + 0.15 * 0)
             (1 + 0.15 * -7)); [|lia|done|done].
  f_equal. unfold base_demand. change (IZR (Z.of_nat 0 + 6)) with (IZR 6).
  rewrite sin_quarter_turn. lra.
Qed.

(** ** Outage flags (C3) *)

(** What the code does with the flags: where the failure flag is 1 the
    generation is the noisy base curve, clipped; where it is 0 the
    generation is 0. *)
Lemma load_data_generation `{NumpyRandom} (self : RenewableOptimizer)
    (trial_num : Z) (g g0 : rng_state) (t : nat) :
  hours self = 24%nat -> np_random_seed trial_num = Some g0 -> (t < 24)%nat ->
  exists self' g' sc v,
    load_data self trial_num g = Some (self', g') /\
    get_scenario self' = Some sc /\
    variation_of (data_variation self) (draw_all g0) !! t = Some v /\
    (sc_solar_failure sc !! t = Some 1%Z ->
     sc_P_solar sc !! t = Some (np_clip_lo (base_solar (Z.of_nat t) * v) 0)) /\
    (sc_solar_failure sc !! t = Some 0%Z -> sc_P_solar sc !! t = Some 0) /\
    (sc_wind_failure sc !! t = Some 1%Z ->
     sc_P_wind sc !! t = Some (np_clip_lo (base_wind (Z.of_nat t) * v) 0)) /\
    (sc_wind_failure sc !! t = Some 0%Z -> sc_P_wind sc !! t = Some 0).
Proof.
  intros Hh Hseed Ht.
  destruct (draw_all_shape g0) as (Hz & _).
  destruct (lookup_lt_is_Some_2
              (variation_of (data_variation self) (draw_all g0)) t) as [v Hv].
  { unfold variation_of. rewrite length_fmap. lia. }
  eexists _, _, _, v. split; [by apply load_data_24|].
  split; [apply get_set_scenario|]. split; [done|].
  cbn [scenario_from sc_P_solar sc_P_wind sc_solar_failure sc_wind_failure].
  repeat split; intros Hf; rewrite (generation_lookup _ _ _ _ t v _ Ht Hv Hf);
    f_equal; unfold np_clip_lo; rewrite ?Rmult_1_r, ?Rmult_0_r; [done| |done|].
  - apply Rmax_left. lra.
  - apply Rmax_left. lra.
Qed.

(** C3, the code at a failing input: when the draw flags a solar and a wind
    outage at noon (with no noise), [load_data] still reports the full
    generation for that hour, 51 and 35; when the draw flags no outage, it
    reports no generation. *)
Theorem load_data_outage_inverted :
  (exists self' g' sc,
     @load_data (fixed_random 0 1 0) (init 24 30 50) 0 () = Some (self', g') /\
     get_scenario self' = Some sc /\
     sc_solar_failure sc !! 12%nat = Some 1%Z /\
     sc_P_solar sc !! 12%nat = Some 51 /\
     sc_wind_failure sc !! 12%nat = Some 1%Z /\
     sc_P_wind sc !! 12%nat = Some 35) /\
  (exists self' g' sc,
     @load_data (fixed_random 0 0 0) (init 24 30 50) 0 () = Some (self', g') /\
     get_scenario self' = Some sc /\
     sc_solar_failure sc !! 12%nat = Some 0%Z /\
     sc_P_solar sc !! 12%nat = Some 0 /\
     sc_wind_failure sc !! 12%nat = Some 0%Z /\
     sc_P_wind sc !! 12%nat = Some 0).
Proof.
  split.
  - destruct (@load_data_generation (fixed_random 0 1 0) (init 24 30 50) 0 () ()
                12) as (self' & g' & sc & v & Hload & Hsc & Hv & Hs1 & _ & Hw1 & _);
      [done|done|lia|].
    exists self', g', sc. split; [done|]. split; [done|].
    rewrite load_data_fixed in Hload by done. injection Hload as <- <-.
    rewrite get_set_scenario in Hsc. injection Hsc as <-.
    injection Hv as <-.
    split; [done|]. split; [|split; [done|]].
    + rewrite Hs1 by done. f_equal. unfold base_solar, np_clip_lo.
      change (IZR (Z.of_nat 12 - 6)) with (IZR 6). rewrite sin_quarter_turn.
      rewrite Rmax_left by lra. lra.
    + rewrite Hw1 by done. f_equal. unfold base_wind, np_clip_lo.
      change (IZR (Z.of_nat 12 - 12)) with 0.
      replace (PI * 0 / 6) with 0 by lra. rewrite cos_0.
      rewrite Rmax_left by lra. lra.
  - destruct (@load_data_generation (fixed_random 0 0 0) (init 24 30 50) 0 () ()
                12) as (self' & g' & sc & v & Hload & Hsc & Hv & _ & Hs0 & _ & Hw0);
      [done|done|lia|].
    exists self', g', sc. split; [done|]. split; [done|].
    rewrite load_data_fixed in Hload by done. injection Hload as <- <-.
    rewrite get_set_scenario in Hsc. injection Hsc as <-.
    split; [done|]. split; [by apply Hs0|]. split; [done|by apply Hw0].
Qed.

(** ** Determinism in the seed (C5) *)

Section determinism.
Context `{NumpyRandom}.

(** [load_data] leaves an instance that differs from [self] in the
    scenario only. *)
Lemma load_data_frame (self self1 : RenewableOptimizer) (trial_num : Z)
    (g g1 : rng_state) :
  load_data self trial_num g = Some (self1, g1) ->
  exists sc, self1 = set_scenario sc self.
Proof.
  unfold load_data. intros Hload.
  destruct (np_random_seed trial_num) as [g0|];
    cbn [mbind option_bind] in Hload; [|done].
  repeat match type of Hload with
         | context [match ?p with (_, _) => _ end] => destruct p
         | context [mbind _ ?x] =>
             destruct x; cbn [mbind option_bind] in Hload; [|done]
         end.
  injection Hload as <- <-. by eexists.
Qed.

(** Only [hours] and [data_variation] of the instance are read. *)
Lemma load_data_reads (self : RenewableOptimizer) (sc : Scenario)
    (trial_num : Z) (g : rng_state) :
  load_data (set_scenario sc self) trial_num g = load_data self trial_num g.
Proof. reflexivity. Qed.

(** The scenario depends on [hours] and [data_variation] of the instance
    only, and not on the state of the generator before the call. *)
Lemma load_data_scenario (self1 self2 : RenewableOptimizer) (trial_num : Z)
    (g g' : rng_state) :
  hours self1 = hours self2 -> data_variation self1 = data_variation self2 ->
  loaded_scenario (load_data self1 trial_num g)
  = loaded_scenario (load_data self2 trial_num g').
Proof.
  intros Hh Hd.
  destruct (load_data self1 trial_num g) as [[r1 g1]|] eqn:Hload.
  - unfold load_data in *. rewrite <- Hh, <- Hd.
    destruct (np_random_seed trial_num) as [g0|];
      cbn [mbind option_bind] in *; [|done].
    repeat match type of Hload with
           | context [match ?p with (_, _) => _ end] => destruct p
           | context [mbind _ ?x] =>
               destruct x; cbn [mbind option_bind] in *; [|done]
           end.
    injection Hload as <- <-. unfold loaded_scenario.
    cbn [fmap option_fmap option_map fst]. by rewrite !get_set_scenario.
  - unfold load_data in *. rewrite <- Hh, <- Hd.
    destruct (np_random_seed trial_num) as [g0|];
      cbn [mbind option_bind] in *; [|done].
    repeat match type of Hload with
           | context [match ?p with (_, _) => _ end] => destruct p
           | context [mbind _ ?x] =>
               destruct x; cbn [mbind option_bind] in *; [|done]
           end.
    done.
Qed.

(** C5: the scenario [load_data(seed)] builds is a function of the seed.
    It does not depend on the state of the generator before the call; a
    second call on the instance the first one left, with the same seed,
    returns the very same instance and generator state; and two fresh
    instances of the same [hours] get the same eight arrays. *)
Theorem load_data_deterministic (self : RenewableOptimizer) (trial_num : Z)
    (g g' : rng_state) :
  load_data self trial_num g = load_data self trial_num g' /\
  match load_data self trial_num g with
  | Some r => load_data r.1 trial_num r.2 = Some r
  | None => True
  end /\
  (forall h p1 m1 p2 m2,
     loaded_scenario (load_data (init h p1 m1) trial_num g)
     = loaded_scenario (load_data (init h p2 m2) trial_num g')).
Proof.
  split; [done|]. split.
  - destruct (load_data self trial_num g) as [[self1 g1]|] eqn:Hload; [|done].
    destruct (load_data_frame _ _ _ _ _ Hload) as [sc ->].
    cbn [fst snd]. by rewrite load_data_reads.
  - intros h p1 m1 p2 m2. by apply load_data_scenario.
Qed.

End determinism.

(** ** The trial harness (C8) *)

Lemma append_trial_lookup (trial_results : gmap string TrialResult)
    (results : gmap string AlgoResults) (b : string) :
  append_trial trial_results results !! b
  = match trial_results !! b with
    | Some data => append_result data <$> results !! b
    | None => results !! b
    end.
Proof.
  unfold append_trial.
  apply (map_fold_weak_ind
           (fun r (m : gmap string TrialResult) =>
              r !! b = match m !! b with
                       | Some data => append_result data <$> results !! b
                       | None => results !! b
                       end)).
  - by rewrite lookup_empty.
  - intros i x m r Hi IH. destruct (decide (i = b)) as [->|Hne].
    + rewrite lookup_alter_eq, lookup_insert_eq, IH, Hi. done.
    + rewrite lookup_alter_ne, lookup_insert_ne by done. exact IH.
Qed.

Section harness.
Context {World : Type} (cls : OptimizerClass World).

Lemma run_algorithms_other algorithms b : forall w trial_results,
  b ∉ algorithms.*1 ->
  (run_algorithms cls algorithms w trial_results).2 !! b = trial_results !! b.
Proof.
  induction algorithms as [|[name method_name] rest IH];
    intros w trial_results Hb; simpl; [done|].
  simpl in Hb. apply not_elem_of_cons in Hb as [Hne Hb].
  destruct (call_method cls method_name w) as [w' o].
  rewrite IH by done. by apply lookup_insert_ne.
Qed.

Lemma run_algorithms_is_Some algorithms b : forall w trial_results,
  b ∈ algorithms.*1 ->
  is_Some ((run_algorithms cls algorithms w trial_results).2 !! b).
Proof.
  induction algorithms as [|[name method_name] rest IH];
    intros w trial_results Hb; simpl; [by apply elem_of_nil in Hb|].
  simpl in Hb. destruct (call_method cls method_name w) as [w' o].
  destruct (decide (b ∈ rest.*1)) as [Hin|Hout]; [by apply IH|].
  rewrite run_algorithms_other by done.
  apply elem_of_cons in Hb as [->|Hb]; [|done]. by rewrite lookup_insert_eq.
Qed.

(** An algorithm whose method always raises is recorded as a failed run. *)
Lemma run_algorithms_failing algorithms a m : forall w trial_results,
  NoDup algorithms.*1 -> (a, m) ∈ algorithms ->
  (forall w, (call_method cls m w).2 = None) ->
  (run_algorithms cls algorithms w trial_results).2 !! a = Some failed_run.
Proof.
  induction algorithms as [|[name method_name] rest IH];
    intros w trial_results Hnodup Hin Hraise; [by apply elem_of_nil in Hin|].
  simpl in *. apply NoDup_cons in Hnodup as [Hname Hrest].
  destruct (call_method cls method_name w) as [w' o] eqn:Hcall.
  apply elem_of_cons in Hin as [[= <- <-]|Hin]; [|by apply IH].
  rewrite run_algorithms_other by done.
  rewrite lookup_insert_eq. specialize (Hraise w). rewrite Hcall in Hraise.
  simpl in Hraise. by subst o.
Qed.

(** When the set-up of a trial never raises the loop returns, and every
    registered algorithm gets one more entry per trial. *)
Lemma trials_loop_grows algorithms trials : forall w results,
  (forall trial w, is_Some (new_optimizer cls trial w)) ->
  exists final,
    trials_loop cls algorithms trials w results = Some final /\
    forall b r, b ∈ algorithms.*1 -> results !! b = Some r ->
      exists r', final !! b = Some r' /\ grown_by (length trials) r r'.
Proof.
  induction trials as [|trial rest IH]; intros w results Hsetup; simpl.
  - exists results. split; [done|]. intros b r _ Hr. exists r.
    split; [done|]. unfold grown_by. lia.
  - destruct (Hsetup trial w) as [w1 ->]. simpl.
    destruct (run_algorithms cls algorithms w1 ∅) as [w2 tr] eqn:Hrun.
    destruct (IH w2 (append_trial tr results) Hsetup) as (final & -> & Hfinal).
    exists final. split; [done|]. intros b r Hb Hr.
    destruct (run_algorithms_is_Some algorithms b w1 ∅ Hb) as [data Hdata].
    rewrite Hrun in Hdata. simpl in Hdata.
    destruct (Hfinal b (append_result data r) Hb) as (r' & Hr' & Hg).
    { by rewrite append_trial_lookup, Hdata, Hr. }
    exists r'. split; [done|]. unfold grown_by, append_result in *.
    simpl in Hg. rewrite !length_app in Hg. simpl in Hg. lia.
Qed.

Lemma trials_loop_failing algorithms a m trials : forall w results r,
  NoDup algorithms.*1 -> (a, m) ∈ algorithms ->
  (forall w, (call_method cls m w).2 = None) ->
  results !! a = Some r ->
  forall final, trials_loop cls algorithms trials w results = Some final ->
    final !! a
    = Some {| costs := costs r ++ replicate (length trials) np_inf;
              histories := histories r ++ replicate (length trials) [];
              solutions := solutions r ++ replicate (length trials) None |}.
Proof.
  induction trials as [|trial rest IH];
    intros w results r Hnodup Hin Hraise Hr final; simpl.
  - intros [= <-]. rewrite !app_nil_r. by destruct r.
  - destruct (new_optimizer cls trial w) as [w1|]; [|done]. simpl.
    destruct (run_algorithms cls algorithms w1 ∅) as [w2 tr] eqn:Hrun.
    intros Hloop.
    pose proof (run_algorithms_failing algorithms a m w1 ∅ Hnodup Hin Hraise)
      as Hfail.
    rewrite Hrun in Hfail. simpl in Hfail.
    rewrite (IH w2 (append_trial tr results) (append_result failed_run r)
               Hnodup Hin Hraise) with (final := final); [|  |done].
    + unfold append_result, failed_run. simpl.
      by rewrite <- !app_assoc.
    + by rewrite append_trial_lookup, Hfail, Hr.
Qed.

End harness.

Section isolation.
Context {World : Type} (cls cls' : OptimizerClass World) (m : string).
Hypothesis Hdiffer : differ_in_outcome_of m cls cls'.

Lemma run_algorithms_isolated algorithms : forall w tr tr',
  (run_algorithms cls' algorithms w tr').1
  = (run_algorithms cls algorithms w tr).1 /\
  forall b, other_algorithm algorithms m b -> tr' !! b = tr !! b ->
    (run_algorithms cls' algorithms w tr').2 !! b
    = (run_algorithms cls algorithms w tr).2 !! b.
Proof.
  destruct Hdiffer as (_ & Hother & Hstate).
  induction algorithms as [|[name method_name] rest IH]; intros w tr tr';
    simpl; [done|].
  destruct (decide (method_name = m)) as [->|Hne].
  - specialize (Hstate w).
    destruct (call_method cls m w) as [w1 o], (call_method cls' m w) as [w1' o'].
    simpl in Hstate. subst w1'.
    destruct (IH w1 (<[name := record_outcome o]> tr)
                (<[name := record_outcome o']> tr')) as [IHw IHb].
    split; [done|]. intros b Hb Htr. apply IHb.
    + intros m_b Hin. apply Hb. by apply list_elem_of_further.
    + assert (b ≠ name) as Hbn.
      { intros ->. exact (Hb m (list_elem_of_here _ _) eq_refl). }
      by rewrite !lookup_insert_ne.
  - rewrite (Hother method_name w Hne).
    destruct (call_method cls method_name w) as [w1 o].
    destruct (IH w1 (<[name := record_outcome o]> tr)
                (<[name := record_outcome o]> tr')) as [IHw IHb].
    split; [done|]. intros b Hb Htr. apply IHb.
    + intros m_b Hin. apply Hb. by apply list_elem_of_further.
    + destruct (decide (name = b)) as [->|Hbn].
      * by rewrite !lookup_insert_eq.
      * by rewrite !lookup_insert_ne.
Qed.

Lemma trials_loop_isolated algorithms trials : forall w results results',
  (forall b, other_algorithm algorithms m b -> results' !! b = results !! b) ->
  match trials_loop cls algorithms trials w results,
        trials_loop cls' algorithms trials w results' with
  | Some final, Some final' =>
      forall b, other_algorithm algorithms m b -> final' !! b = final !! b
  | None, None => True
  | _, _ => False
  end.
Proof.
  induction trials as [|trial rest IH]; intros w results results' Hres;
    simpl; [done|].
  destruct Hdiffer as (Hsetup & _). rewrite Hsetup.
  destruct (new_optimizer cls trial w) as [w1|]; simpl; [|done].
  destruct (run_algorithms_isolated algorithms w1 ∅ ∅) as [Hw Hb].
  destruct (run_algorithms cls algorithms w1 ∅) as [w2 tr].
  destruct (run_algorithms cls' algorithms w1 ∅) as [w2' tr'].
  simpl in Hw, Hb. subst w2'. apply IH. intros b Hob.
  rewrite !append_trial_lookup, (Hb b Hob), (Hres b Hob) by done. done.
Qed.

End isolation.

(** *** The calls of a run and what is recorded of them *)

Lemma record_outcome_recorded (o : Outcome) :
  record_outcome o
  = {| tr_cost := recorded_cost o; tr_history := recorded_history o;
       tr_solution := recorded_solution o |}.
Proof. destruct o as [[best_x history]|]; [|done]. simpl. by destruct (last history). Qed.

Lemma outcome_of_None (b : string) (calls : list (string * Outcome)) :
  b ∉ calls.*1 -> outcome_of b calls = None.
Proof.
  induction calls as [|[name o] rest IH]; simpl; [done|].
  intros Hb. apply not_elem_of_cons in Hb as [Hne Hb].
  rewrite decide_False by done. by apply IH.
Qed.

Section call_log.
Context {World : Type} (cls : OptimizerClass World).

Lemma trial_calls_names algorithms : forall w,
  (trial_calls cls algorithms w).2.*1 = algorithms.*1.
Proof.
  induction algorithms as [|[name method_name] rest IH]; intros w; simpl; [done|].
  destruct (call_method cls method_name w) as [w1 o].
  specialize (IH w1). destruct (trial_calls cls rest w1) as [w2 calls].
  simpl in *. f_equal. exact IH.
Qed.

(** The dictionary of a trial holds, for every name, the record of the
    outcome of the call made for it. *)
Lemma run_algorithms_calls algorithms : forall w trial_results,
  NoDup algorithms.*1 ->
  (run_algorithms cls algorithms w trial_results).1
  = (trial_calls cls algorithms w).1 /\
  forall b,
    (run_algorithms cls algorithms w trial_results).2 !! b
    = match outcome_of b (trial_calls cls algorithms w).2 with
      | Some o => Some (record_outcome o)
      | None => trial_results !! b
      end.
Proof.
  induction algorithms as [|[name method_name] rest IH];
    intros w trial_results Hnodup; simpl; [done|].
  simpl in Hnodup. apply NoDup_cons in Hnodup as [Hname Hrest].
  destruct (call_method cls method_name w) as [w1 o].
  destruct (IH w1 (<[name := record_outcome o]> trial_results) Hrest)
    as [IHw IHb].
  pose proof (trial_calls_names rest w1) as Hnames.
  destruct (trial_calls cls rest w1) as [w2 calls]. simpl in *.
  split; [done|]. intros b. rewrite IHb.
  destruct (decide (name = b)) as [->|Hne].
  - rewrite outcome_of_None by (by rewrite Hnames).
    by rewrite lookup_insert_eq.
  - destruct (outcome_of b calls); [done|]. by rewrite lookup_insert_ne.
Qed.

Lemma outcome_of_is_Some algorithms b w :
  b ∈ algorithms.*1 -> is_Some (outcome_of b (trial_calls cls algorithms w).2).
Proof.
  revert w. induction algorithms as [|[name method_name] rest IH];
    intros w Hb; simpl in *; [by apply elem_of_nil in Hb|].
  destruct (call_method cls method_name w) as [w1 o].
  specialize (IH w1). destruct (trial_calls cls rest w1) as [w2 calls].
  simpl in *. case_decide; [by eexists|].
  apply IH. apply elem_of_cons in Hb as [->|Hb]; done.
Qed.

(** When the set-up of a trial never raises the loop returns, and every
    registered algorithm gets, per trial, the record of the outcome of its
    own call. *)
Lemma trials_loop_calls algorithms trials : forall w results,
  NoDup algorithms.*1 ->
  (forall trial w, is_Some (new_optimizer cls trial w)) ->
  exists final calls,
    trials_loop cls algorithms trials w results = Some final /\
    all_calls cls algorithms trials w = Some calls /\
    length calls = length trials /\
    forall b r, b ∈ algorithms.*1 -> results !! b = Some r ->
      length (outcomes_of b calls) = length trials /\
      final !! b
      = Some {| costs := costs r ++ costs (recorded (outcomes_of b calls));
                histories := histories r
                             ++ histories (recorded (outcomes_of b calls));
                solutions := solutions r
                             ++ solutions (recorded (outcomes_of b calls)) |}.
Proof.
  induction trials as [|trial rest IH]; intros w results Hnodup Hsetup; simpl.
  - exists results, []. split; [done|]. split; [done|]. split; [done|].
    intros b r _ Hr. split; [done|]. simpl. rewrite !app_nil_r. by destruct r.
  - destruct (Hsetup trial w) as [w1 ->]. simpl.
    destruct (run_algorithms_calls algorithms w1 ∅ Hnodup) as [Hw Hb].
    destruct (run_algorithms cls algorithms w1 ∅) as [w2 tr].
    pose proof (outcome_of_is_Some algorithms) as Hsome.
    specialize (fun b => Hsome b w1).
    destruct (trial_calls cls algorithms w1) as [w2' calls]. simpl in *.
    subst w2'.
    destruct (IH w2 (append_trial tr results) Hnodup Hsetup)
      as (final & later & -> & -> & Hlen & Hfinal).
    exists final, (calls :: later). simpl.
    split; [done|]. split; [done|]. split; [by rewrite Hlen|].
    intros b r Hin Hr.
    destruct (Hsome b Hin) as [o Ho].
    destruct (Hfinal b (append_result (record_outcome o) r) Hin)
      as [Hlen' Hfinal'].
    { by rewrite append_trial_lookup, Hb, Ho, Hr. }
    unfold outcomes_of in *. simpl. rewrite Ho. simpl.
    split; [by rewrite Hlen'|]. rewrite Hfinal'.
    rewrite record_outcome_recorded. unfold append_result. simpl.
    by rewrite <- !app_assoc.
Qed.

End call_log.

Lemma initial_results_lookup (algorithms : list (string * string)) (b : string) :
  (list_to_map ((fun item => (item.1, empty_results)) <$> algorithms)
     : gmap string AlgoResults) !! b
  = if decide (b ∈ algorithms.*1) then Some empty_results else None.
Proof.
  case_decide as Hb.
  - destruct ((list_to_map ((fun item => (item.1, empty_results)) <$> algorithms)
                 : gmap string AlgoResults) !! b) as [r|] eqn:Hr.
    + apply elem_of_list_to_map_2 in Hr.
      apply list_elem_of_fmap in Hr as (item & [= _ ->] & _). done.
    + apply not_elem_of_list_to_map in Hr. exfalso. apply Hr.
      by rewrite <- list_fmap_compose.
  - apply not_elem_of_list_to_map. by rewrite <- list_fmap_compose.
Qed.

Lemma NoDup_demo_algorithms : NoDup demo_algorithms.*1.
Proof.
  simpl. apply NoDup_cons. split; [|apply NoDup_singleton].
  intros Hin. apply list_elem_of_singleton in Hin. discriminate Hin.
Qed.

(** C8 as stated fails: the algorithms of a trial share the optimizer
    instance and the global random generator, so what a failing method did
    before it raised reaches the algorithms called after it.  Two classes
    that differ in the failing method only, which raises at every call in
    both, record different costs for the other algorithm; and so does
    [demo_class] with and without the failing algorithm registered. *)
Lemma run_multiple_trials_shared_state_counterexample :
  same_but_for "run_bad" demo_class demo_class_quiet /\
  (forall w, (call_method demo_class "run_bad" w).2 = None) /\
  (forall w, (call_method demo_class_quiet "run_bad" w).2 = None) /\
  other_algorithm demo_algorithms "run_bad" "GWO" /\
  costs <$> (run_multiple_trials demo_class demo_algorithms 2 0%nat
               ≫= (.!! "GWO"%string))
  = Some [Finite (INR 1); Finite (INR 1)] /\
  costs <$> (run_multiple_trials demo_class_quiet demo_algorithms 2 0%nat
               ≫= (.!! "GWO"%string))
  = Some [Finite (INR 0); Finite (INR 0)] /\
  costs <$> (run_multiple_trials demo_class [("GWO", "run_gwo")]%string 2 0%nat
               ≫= (.!! "GWO"%string))
  = Some [Finite (INR 0); Finite (INR 0)] /\
  run_multiple_trials demo_class demo_algorithms 2 0%nat ≫= (.!! "GWO"%string)
  ≠ run_multiple_trials demo_class_quiet demo_algorithms 2 0%nat
    ≫= (.!! "GWO"%string).
Proof.
  assert (costs <$> (run_multiple_trials demo_class demo_algorithms 2 0%nat
                       ≫= (.!! "GWO"%string))
          = Some [Finite (INR 1); Finite (INR 1)]) as Hloud by reflexivity.
  assert (costs <$> (run_multiple_trials demo_class_quiet demo_algorithms 2
                       0%nat ≫= (.!! "GWO"%string))
          = Some [Finite (INR 0); Finite (INR 0)]) as Hquiet by reflexivity.
  split; [|split; [|split; [|split; [|split; [|split; [|split]]]]]].
  - split; [reflexivity|]. intros m' w Hne. simpl.
    destruct (String.eqb_spec m' "run_bad"); [contradiction|reflexivity].
  - reflexivity.
  - reflexivity.
  - intros m_b Hin. apply elem_of_cons in Hin as [[=]|Hin].
    apply list_elem_of_singleton in Hin. injection Hin as ->. discriminate.
  - exact Hloud.
  - exact Hquiet.
  - reflexivity.
  - intros Heq. rewrite Heq, Hquiet in Hloud. injection Hloud as Hone _.
    simpl in Hone. lra.
Qed.

(** C8, amended: when the set-up of the trials does not raise and the
    method of one registered algorithm raises at every call,
    [run_multiple_trials] returns; the failing algorithm has [n] entries,
    each with cost [+inf], an empty history and no solution; every
    registered algorithm has [n] entries, the records of the outcomes of its
    own [n] calls, in the order of the trials (the last value of the
    returned history, the history and the solution; a failed entry where the
    call raised); and what is recorded for the algorithms registered with
    another method is what is recorded for them in a run where the failing
    method returns or raises anything else, provided it has the same effect
    on the shared state. *)
Theorem run_multiple_trials_fault_isolation {World : Type}
    (cls : OptimizerClass World) (algorithms : list (string * string))
    (n : nat) (w : World) (a m : string) :
  NoDup algorithms.*1 -> (a, m) ∈ algorithms ->
  (forall trial w, is_Some (new_optimizer cls trial w)) ->
  (forall w, (call_method cls m w).2 = None) ->
  exists results calls,
    run_multiple_trials cls algorithms n w = Some results /\
    all_calls cls algorithms (py_range 0 n) w = Some calls /\
    results !! a = Some (failed_runs n) /\
    (forall b, b ∈ algorithms.*1 ->
       length (outcomes_of b calls) = n /\
       results !! b = Some (recorded (outcomes_of b calls))) /\
    (forall cls', differ_in_outcome_of m cls cls' ->
       exists results',
         run_multiple_trials cls' algorithms n w = Some results' /\
         forall b, other_algorithm algorithms m b ->
                   results' !! b = results !! b).
Proof.
  intros Hnodup Hin Hsetup Hraise. unfold run_multiple_trials.
  set (results0 := list_to_map
                     ((fun item => (item.1, empty_results)) <$> algorithms)
                   : gmap string AlgoResults).
  assert (forall b, b ∈ algorithms.*1 -> results0 !! b = Some empty_results)
    as Hinit.
  { intros b Hb. unfold results0. rewrite initial_results_lookup.
    by rewrite decide_True. }
  destruct (trials_loop_calls cls algorithms (py_range 0 n) w results0 Hnodup
              Hsetup) as (results & calls & Hrun & Hcalls & _ & Hrec).
  assert (length (py_range 0 n) = n) as Hlen
    by (unfold py_range; rewrite length_seq; lia).
  exists results, calls. split; [done|]. split; [done|]. split; [|split].
  - rewrite (trials_loop_failing cls algorithms a m (py_range 0 n) w results0
               empty_results Hnodup Hin Hraise) with (final := results);
      [by rewrite Hlen| |done].
    apply Hinit. apply list_elem_of_fmap. by exists (a, m).
  - intros b Hb. destruct (Hrec b empty_results Hb (Hinit b Hb)) as [Hn Hr].
    rewrite Hlen in Hn. split; [done|]. rewrite Hr. done.
  - intros cls' Hdiffer.
    pose proof (trials_loop_isolated cls cls' m Hdiffer algorithms
                  (py_range 0 n) w results0 results0 (fun _ _ => eq_refl))
      as Hiso.
    rewrite Hrun in Hiso.
    destruct (trials_loop cls' algorithms (py_range 0 n) w results0)
      as [results'|]; [|done].
    by exists results'.
Qed.

Lemma run_multiple_trials_fault_isolation_witness :
  exists results calls,
    run_multiple_trials demo_class demo_algorithms 2 0%nat = Some results /\
    all_calls demo_class demo_algorithms (py_range 0 2) 0%nat = Some calls /\
    results !! "BAD"%string = Some (failed_runs 2) /\
    (forall b, b ∈ demo_algorithms.*1 ->
       length (outcomes_of b calls) = 2%nat /\
       results !! b = Some (recorded (outcomes_of b calls))) /\
    (forall cls', differ_in_outcome_of "run_bad" demo_class cls' ->
       exists results',
         run_multiple_trials cls' demo_algorithms 2 0%nat = Some results' /\
         forall b, other_algorithm demo_algorithms "run_bad" b ->
                   results' !! b = results !! b).
Proof.
  apply (run_multiple_trials_fault_isolation demo_class demo_algorithms 2
           0%nat "BAD" "run_bad").
  - exact NoDup_demo_algorithms.
  - apply list_elem_of_here.
  - intros trial w. exists 0%nat. reflexivity.
  - intros w. reflexivity.
Defined.

(** The demo run, evaluated: the failing algorithm has two failed entries,
    and the other one has the results of its own two calls (each made after
    the failing call of the same trial had changed the shared state). *)
Example demo_run_recorded :
  (results ← run_multiple_trials demo_class demo_algorithms 2 0%nat;
   Some (results !! "BAD"%string, results !! "GWO"%string))
  = Some (Some (failed_runs 2),
          Some {| costs := [Finite (INR 1); Finite (INR 1)];
                  histories := [[Finite 7; Finite (INR 1)];
                                [Finite 7; Finite (INR 1)]];
                  solutions := [Some [100]; Some [100]] |}).
Proof. reflexivity. Qed.

(** ** The statistics (C9) *)

Lemma finite_values_filter (costs : list npfloat) :
  Finite <$> finite_values costs = filter (fun c => np_isfinite c) costs.
Proof.
  induction costs as [|c costs IH]; [done|].
  unfold finite_values in *. destruct c; simpl.
  - rewrite filter_cons_True by done. by rewrite <- IH.
  - rewrite filter_cons_False by (simpl; tauto). exact IH.
  - rewrite filter_cons_False by (simpl; tauto). exact IH.
  - rewrite filter_cons_False by (simpl; tauto). exact IH.
Qed.

Lemma np_min_le (l : list R) (x : R) : x ∈ l -> np_min l <= x.
Proof.
  unfold np_min. generalize (hd 0 l). intros d Hx.
  induction l as [|y l IH]; [by apply elem_of_nil in Hx|].
  simpl. apply elem_of_cons in Hx as [->|Hx].
  - apply Rmin_l.
  - etransitivity; [apply Rmin_r|by apply IH].
Qed.

Lemma np_max_ge (l : list R) (x : R) : x ∈ l -> x <= np_max l.
Proof.
  unfold np_max. generalize (hd 0 l). intros d Hx.
  induction l as [|y l IH]; [by apply elem_of_nil in Hx|].
  simpl. apply elem_of_cons in Hx as [->|Hx].
  - apply Rmax_l.
  - etransitivity; [by apply IH|apply Rmax_r].
Qed.

(** The four statistics of [analyze] depend on the finite costs only. *)
Lemma analyze_finite_values (data data' : AlgoResults) :
  finite_values (costs data') = finite_values (costs data) ->
  mean (analyze data') = mean (analyze data) /\
  std (analyze data') = std (analyze data) /\
  min (analyze data') = min (analyze data) /\
  max (analyze data') = max (analyze data).
Proof. intros Hv. unfold analyze. rewrite Hv. by case_decide. Qed.

(** C9: for every algorithm of the result collection, [analyze_results]
    takes the finite recorded costs (those that pass [np.isfinite], in
    order); when there is none, mean, std, min and max are NaN and the
    success rate is 0; otherwise mean, std, min and max are those of the
    finite costs alone, the minimum and the maximum bound every finite cost,
    and the success rate is the number of finite costs over the number of
    trials.  Entries that are not finite change the success rate only. *)
Theorem analyze_results_finite_only (results : gmap string AlgoResults)
    (algo : string) (data : AlgoResults) :
  results !! algo = Some data ->
  let valid := finite_values (costs data) in
  Finite <$> valid = filter (fun c => np_isfinite c) (costs data) /\
  exists st,
    analyze_results results !! algo = Some st /\
    (valid = [] ->
     st = {| mean := NaN; std := NaN; min := NaN; max := NaN;
             success_rate := Finite 0 |}) /\
    (valid ≠ [] ->
     st = {| mean := Finite (np_mean valid); std := Finite (np_std valid);
             min := Finite (np_min valid); max := Finite (np_max valid);
             success_rate :=
               Finite (INR (length valid) / INR (length (costs data))) |} /\
     forall x, x ∈ valid -> np_min valid <= x <= np_max valid) /\
    (forall data', finite_values (costs data') = valid ->
       mean (analyze data') = mean st /\ std (analyze data') = std st /\
       min (analyze data') = min st /\ max (analyze data') = max st).
Proof.
  intros Hdata valid. split; [apply finite_values_filter|].
  exists (analyze data). split.
  { unfold analyze_results. by rewrite lookup_fmap, Hdata. }
  split; [|split].
  - intros Hv. unfold analyze. fold valid. rewrite Hv. simpl.
    do 2 f_equal. lra.
  - intros Hv. split.
    + unfold analyze. fold valid. rewrite decide_False; [done|].
      by destruct valid.
    + intros x Hx. split; [by apply np_min_le|by apply np_max_ge].
  - intros data' Hv. by apply analyze_finite_values.
Qed.

Lemma analyze_results_finite_only_witness :
  exists st,
    analyze_results demo_results !! "GWO"%string = Some st /\
    mean st = Finite (np_mean [3; 5]) /\ min st = Finite (np_min [3; 5]) /\
    success_rate st = Finite (INR 2 / INR 4).
Proof.
  destruct (analyze_results_finite_only demo_results "GWO"
              {| costs := [Finite 3; PosInf; Finite 5; NaN];
                 histories := [[Finite 3]; []; [Finite 5]; [NaN]];
                 solutions := [Some [100]; None; Some [200]; Some [1]] |})
    as (_ & st & Hst & _ & Hsome & _).
  - apply lookup_singleton_eq.
  - exists st. split; [exact Hst|].
    destruct Hsome as [-> _]; [discriminate|]. repeat split.
Defined.

(** The demo collection, evaluated: two of the four trials are finite. *)
Example analyze_demo :
  analyze_results demo_results !! "GWO"%string
  = Some {| mean := Finite 4; std := Finite 1; min := Finite 3;
            max := Finite 5; success_rate := Finite 0.5 |}.
Proof.
  unfold analyze_results, demo_results. rewrite lookup_fmap, lookup_singleton_eq.
  simpl. unfold analyze. simpl.
  assert (np_mean [3; 5] = 4) as Hmean by (unfold np_mean, py_sum; simpl; lra).
  f_equal. f_equal.
  - by rewrite Hmean.
  - f_equal. unfold np_std. simpl. rewrite Hmean.
    replace (np_mean [Rabs (3 - 4) * (Rabs (3 - 4) * 1);
                      Rabs (5 - 4) * (Rabs (5 - 4) * 1)]) with 1.
    + apply sqrt_1.
    + assert (Rabs (3 - 4) = 1) as ->
        by (unfold Rabs; destruct (Rcase_abs _); lra).
      assert (Rabs (5 - 4) = 1) as ->
        by (unfold Rabs; destruct (Rcase_abs _); lra).
      unfold np_mean, py_sum. simpl. lra.
  - f_equal. unfold np_min. simpl. Rcases.
  - f_equal. unfold np_max. simpl. Rcases.
  - f_equal. lra.
Qed.

(** * Further properties of the code *)

(** ** calculate_soc: when it returns, the recurrence and prefixes of the trace *)

(** A loop that returns ran its body on every element. *)
Lemma for_each_Some_body {A St} (body : St -> A -> option St) xs : forall st st',
  for_each body xs st = Some st' ->
  forall x, x ∈ xs -> exists s, is_Some (body s x).
Proof.
  induction xs as [|y xs IH]; intros st st' Hrun x Hx;
    [by apply elem_of_nil in Hx|].
  simpl in Hrun. destruct (body st y) as [s1|] eqn:Hb; [|done].
  simpl in Hrun. apply elem_of_cons in Hx as [->|Hx].
  - exists st. by rewrite Hb.
  - by eapply IH.
Qed.

Lemma soc_rec_inv_step S u hours t SOC SOC' :
  (1 <= t)%nat -> soc_rec_inv S u hours t SOC ->
  soc_body S u SOC t = Some SOC' ->
  soc_rec_inv S u hours (Datatypes.S t) SOC'.
Proof.
  intros Ht (Hlen & H0 & Hrec) Hb.
  apply soc_body_inv in Hb as (u_t & prev & Hu & Hp & Hlt & ->).
  split; [by rewrite length_insert|]. split.
  - by rewrite list_lookup_insert_ne by lia.
  - intros i Hi. destruct (decide (i = t)) as [->|Hne].
    + exists prev, u_t. rewrite list_lookup_insert_ne by lia.
      by rewrite list_lookup_insert_eq.
    + destruct (Hrec i) as (p & x & Hp' & Hx & Hi'); [lia|].
      exists p, x. by rewrite !list_lookup_insert_ne by lia.
Qed.

Lemma soc_rec_inv_init S u hours :
  (1 <= hours)%nat ->
  soc_rec_inv S u hours 1 (<[0%nat := 0.5]> (replicate hours 0)).
Proof.
  intros Hh. split; [rewrite length_insert, length_replicate; done|].
  split; [|intros t Ht; lia].
  apply list_lookup_insert_eq. rewrite length_replicate. lia.
Qed.

Lemma calculate_soc_rec_inv (solution : list R) (hours : nat) (S : R)
    (SOC : list R) :
  solution !! 0%nat = Some S -> calculate_soc solution hours = Some SOC ->
  (1 <= hours)%nat /\ soc_rec_inv S (drop 1 solution) hours hours SOC.
Proof.
  intros HS. unfold calculate_soc, np_get. rewrite HS. simpl.
  destruct (decide (1 <= hours)%nat) as [Hh|Hh].
  - rewrite np_set_lt by (rewrite length_replicate; lia). simpl.
    unfold py_range. intros Hrun. split; [done|].
    replace hours with (1 + (hours - 1))%nat at 2 by lia.
    eapply (for_each_seq_inv (soc_body S (drop 1 solution))
              (soc_rec_inv S (drop 1 solution) hours)); [| |exact Hrun].
    + by apply soc_rec_inv_init.
    + intros t s s' Ht. apply soc_rec_inv_step. lia.
  - unfold np_set. rewrite decide_False by (rewrite length_replicate; lia).
    done.
Qed.

(** A call that returns was given a solution that is long enough. *)
Lemma calculate_soc_Some_inv (solution : list R) (hours : nat) :
  is_Some (calculate_soc solution hours) ->
  solution ≠ [] /\ (1 <= hours)%nat /\
  (hours = 1%nat \/ (hours < length solution)%nat).
Proof.
  intros [SOC Hrun]. destruct solution as [|S rest]; [done|].
  destruct (calculate_soc_rec_inv (S :: rest) hours S SOC eq_refl Hrun)
    as (Hh & _ & _ & Hrec).
  split; [done|]. split; [done|].
  destruct (decide (hours = 1%nat)) as [|Hne]; [by left|right].
  destruct (Hrec (hours - 1)%nat) as (_ & u_t & _ & Hu & _); [lia|].
  apply lookup_lt_Some in Hu. rewrite length_drop in Hu. lia.
Qed.

(** On a solution that is long enough the call returns. *)
Lemma calculate_soc_total (solution : list R) (hours : nat) :
  solution ≠ [] -> (1 <= hours)%nat ->
  hours = 1%nat \/ (hours < length solution)%nat ->
  is_Some (calculate_soc solution hours).
Proof.
  intros Hne Hh Hlen. destruct solution as [|S rest]; [done|].
  unfold calculate_soc, np_get. simpl.
  rewrite np_set_lt by (rewrite length_replicate; lia). simpl.
  rewrite drop_0. unfold py_range.
  destruct (for_each_seq_total (soc_body S rest) (soc_inv hours)
              (hours - 1) 1 (<[0%nat := 0.5]> (replicate hours 0)))
    as (st' & -> & _); [by apply soc_inv_init| |done].
  intros t s Ht (Hl & H0 & Hok). simpl in Hlen.
  destruct (lookup_lt_is_Some_2 rest t) as [u_t Hu]; [lia|].
  destruct (lookup_lt_is_Some_2 s (t - 1)) as [prev Hp]; [lia|].
  rewrite (soc_body_Some _ _ _ _ u_t prev) by (done || lia).
  eexists; split; [done|].
  apply (soc_inv_step S rest hours t s); [lia|exact (conj Hl (conj H0 Hok))|].
  apply soc_body_Some; [done|done|lia].
Qed.

(** X1: [calculate_soc] returns exactly when the solution is not empty,
    [hours >= 1], and the solution has more than [hours] elements or
    [hours = 1]; otherwise it raises ([IndexError]). *)
Theorem calculate_soc_returns (solution : list R) (hours : nat) :
  is_Some (calculate_soc solution hours) <->
  solution ≠ [] /\ (1 <= hours)%nat /\
  (hours = 1%nat \/ (hours < length solution)%nat).
Proof.
  split.
  - apply calculate_soc_Some_inv.
  - intros (Hne & Hh & Hlen). by apply calculate_soc_total.
Qed.

(** In exact arithmetic, for a positive capacity the returned trace starts
    at 0.5 and follows the recurrence [SOC[t] = soc_next SOC[t-1] u[t]],
    where [u[t]] is [solution[t+1]]: there the capacity cancels (in float64
    it does so up to rounding only). *)
Lemma calculate_soc_recurrence (solution : list R) (hours : nat) (S : R)
    (SOC : list R) :
  solution !! 0%nat = Some S -> 0 < S ->
  calculate_soc solution hours = Some SOC ->
  length SOC = hours /\ SOC !! 0%nat = Some 0.5 /\
  forall t, (1 <= t < hours)%nat ->
    exists prev u_t, SOC !! (t - 1)%nat = Some prev /\
      solution !! (t + 1)%nat = Some u_t /\
      SOC !! t = Some (soc_next prev u_t).
Proof.
  intros HS Hpos Hrun.
  destruct (calculate_soc_rec_inv solution hours S SOC HS Hrun)
    as (_ & Hlen & H0 & Hrec).
  split; [done|]. split; [done|]. intros t Ht.
  destruct (Hrec t Ht) as (prev & u_t & Hp & Hu & Hc).
  exists prev, u_t. split; [done|]. split.
  - rewrite lookup_drop in Hu. by rewrite Nat.add_comm.
  - rewrite Hc. unfold soc_next. by rewrite soc_delta_pos.
Qed.

Lemma calculate_soc_in_range (solution : list R) (hours : nat) (S : R)
    (SOC : list R) :
  solution !! 0%nat = Some S -> calculate_soc solution hours = Some SOC ->
  Forall soc_ok SOC.
Proof.
  intros HS. unfold calculate_soc, np_get. rewrite HS. simpl.
  destruct (decide (1 <= hours)%nat) as [Hh|Hh].
  - rewrite np_set_lt by (rewrite length_replicate; lia). simpl.
    unfold py_range. intros Hrun.
    assert (soc_inv hours (1 + (hours - 1)) SOC) as (Hl & H0 & Hok).
    { eapply for_each_seq_inv; [|  |exact Hrun].
      - by apply soc_inv_init.
      - intros t s s' Ht. apply soc_inv_step. lia. }
    apply Forall_lookup. intros i x Hix. eapply Hok; [|done].
    apply lookup_lt_Some in Hix. lia.
  - unfold np_set. rewrite decide_False by (rewrite length_replicate; lia).
    done.
Qed.

Lemma soc_next_discharge (prev u_t : R) :
  soc_ok prev -> 0 <= u_t -> soc_next prev u_t <= prev.
Proof.
  unfold soc_ok, soc_next. intros Hp Hu.
  rewrite decide_False by lra.
  assert (0 <= u_t / 0.95) by lra.
  Rcases.
Qed.

Lemma soc_next_charge (prev u_t : R) :
  soc_ok prev -> u_t <= 0 -> prev <= soc_next prev u_t.
Proof.
  unfold soc_ok, soc_next. intros Hp Hu.
  assert (0 / 0.95 = 0) by lra.
  case_decide; Rcases.
Qed.

(** X2: for a positive capacity, an hour of discharge ([u_t >= 0]) never
    raises the state of charge of the trace and an hour of charge
    ([u_t <= 0]) never lowers it. *)
Theorem calculate_soc_monotone (solution : list R) (hours : nat) (S : R)
    (SOC : list R) (t : nat) (prev cur u_t : R) :
  solution !! 0%nat = Some S -> 0 < S ->
  calculate_soc solution hours = Some SOC -> (1 <= t < hours)%nat ->
  SOC !! (t - 1)%nat = Some prev -> SOC !! t = Some cur ->
  solution !! (t + 1)%nat = Some u_t ->
  (0 <= u_t -> cur <= prev) /\ (u_t <= 0 -> prev <= cur).
Proof.
  intros HS Hpos Hrun Ht Hprev Hcur Hu.
  destruct (calculate_soc_recurrence solution hours S SOC HS Hpos Hrun)
    as (_ & _ & Hrec).
  destruct (Hrec t Ht) as (prev' & u' & Hp' & Hu' & Hc').
  rewrite Hprev in Hp'. rewrite Hu in Hu'. rewrite Hcur in Hc'.
  injection Hp' as <-. injection Hu' as <-. injection Hc' as ->.
  pose proof (calculate_soc_in_range solution hours S SOC HS Hrun) as Hok.
  assert (soc_ok prev) by (by eapply (Forall_lookup_1 _ _ _ _ Hok)).
  split; intros; [by apply soc_next_discharge|by apply soc_next_charge].
Qed.

Lemma calculate_soc_monotone_witness :
  (0 <= 0.1 -> 0.5 - 0.1 / 0.95 <= 0.5) /\ (0.1 <= 0 -> 0.5 <= 0.5 - 0.1 / 0.95).
Proof.
  apply (calculate_soc_monotone [1; 0; 0.1] 2 1 [0.5; 0.5 - 0.1 / 0.95] 1 0.5
           (0.5 - 0.1 / 0.95) 0.1);
    [reflexivity | lra | apply calculate_soc_capacity_1 | lia | reflexivity
    | reflexivity | reflexivity].
Defined.

(** X3: a shorter horizon gives a prefix of the trace: if
    [calculate_soc(solution, hours)] returns, then for [1 <= h <= hours]
    [calculate_soc(solution, h)] returns its first [h] elements. *)
Theorem calculate_soc_prefix (solution : list R) (hours h : nat)
    (SOC : list R) :
  calculate_soc solution hours = Some SOC -> (1 <= h <= hours)%nat ->
  calculate_soc solution h = Some (take h SOC).
Proof.
  intros Hrun Hh.
  assert (is_Some (calculate_soc solution hours)) as Hsome by (by eexists).
  apply calculate_soc_Some_inv in Hsome as (Hne & _ & Hlen).
  destruct (calculate_soc_total solution h) as [SOC' Hrun'];
    [done | lia | destruct Hlen; [left|right]; lia |].
  rewrite Hrun'. f_equal.
  destruct solution as [|S rest]; [done|].
  destruct (calculate_soc_rec_inv (S :: rest) hours S SOC eq_refl Hrun)
    as (_ & Hl & H0 & Hrec).
  destruct (calculate_soc_rec_inv (S :: rest) h S SOC' eq_refl Hrun')
    as (_ & Hl' & H0' & Hrec').
  apply list_eq. intros i.
  destruct (decide (i < h)%nat) as [Hi|Hi].
  - rewrite lookup_take_lt by done.
    induction i as [|i IH]; [by rewrite H0, H0'|].
    destruct (Hrec (Datatypes.S i)) as (p & x & Hp & Hx & Hc); [lia|].
    destruct (Hrec' (Datatypes.S i)) as (p' & x' & Hp' & Hx' & Hc'); [lia|].
    rewrite Hc, Hc'. simpl in Hp, Hp'. rewrite Nat.sub_0_r in Hp, Hp'.
    rewrite IH, Hp in Hp' by lia. injection Hp' as <-.
    rewrite Hx in Hx'. by injection Hx' as <-.
  - rewrite !lookup_ge_None_2; [done| |lia].
    rewrite length_take. lia.
Qed.

Lemma calculate_soc_prefix_witness :
  calculate_soc [1; 0; 0.1] 1 = Some (take 1 [0.5; 0.5 - 0.1 / 0.95]).
Proof.
  apply (calculate_soc_prefix [1; 0; 0.1] 2 1);
    [apply calculate_soc_capacity_1 | lia].
Defined.

(** ** energy_cost: when it returns, and the temperature it leaves *)

Lemma for_each_keep_true {A St} (body : St -> A -> option St) xs : forall st st',
  for_each_keep body xs st = (st', true) -> for_each body xs st = Some st'.
Proof.
  induction xs as [|x xs IH]; intros st st'; simpl.
  - by intros [= ->].
  - destruct (body st x); simpl; [apply IH|done].
Qed.

(** The hourly loop on a loaded instance, with an invariant: the loop
    returns when the arrays have 24 elements and the solution holds 24
    dispatch fractions, and it carries every invariant of [hour_update]. *)
Lemma hours_loop_inv population iters sc S u (P : nat -> LoopState -> Prop) st0 :
  scenario_shape sc -> (24 <= length u)%nat -> P 0%nat st0 ->
  (forall t st u_t d_t g_t e_t a_t p_t,
     (t < 24)%nat -> P t st -> u !! t = Some u_t ->
     sc_P_demand sc !! t = Some d_t -> sc_P_gen sc !! t = Some g_t ->
     sc_emergency_event sc !! t = Some e_t ->
     sc_grid_available sc !! t = Some a_t -> sc_grid_price sc !! t = Some p_t ->
     P (Datatypes.S t)
       (hour_update (set_scenario sc (init 24 population iters)) S
          (1.0 - 0.005 * INR t) u_t d_t g_t e_t a_t p_t st t)) ->
  exists st,
    for_each_keep (hour_body (set_scenario sc (init 24 population iters)) S u)
      (py_range 0 24) st0 = (st, true) /\ P 24%nat st.
Proof.
  intros (Hgen & Hdem & Hprice & Havail & Hemer) Hu H0 Hstep.
  unfold py_range.
  destruct (for_each_seq_total
              (hour_body (set_scenario sc (init 24 population iters)) S u)
              P (24 - 0) 0 st0 H0) as (st & Hrun & Hend).
  - intros t s Ht HP.
    destruct (lookup_lt_is_Some_2 u t) as [u_t Hut]; [lia|].
    destruct (lookup_lt_is_Some_2 (sc_P_demand sc) t) as [d_t Hd]; [lia|].
    destruct (lookup_lt_is_Some_2 (sc_P_gen sc) t) as [g_t Hg]; [lia|].
    destruct (lookup_lt_is_Some_2 (sc_emergency_event sc) t) as [e_t He]; [lia|].
    destruct (lookup_lt_is_Some_2 (sc_grid_available sc) t) as [a_t Ha]; [lia|].
    destruct (lookup_lt_is_Some_2 (sc_grid_price sc) t) as [p_t Hp]; [lia|].
    rewrite (hour_body_Some _ S u s t (1.0 - 0.005 * INR t) u_t
               (sc_P_demand sc) d_t (sc_P_gen sc) g_t e_t
               (sc_grid_available sc) a_t (sc_grid_price sc) p_t);
      try done; [|apply decay_lookup; lia].
    eexists. split; [done|]. apply Hstep; try done. lia.
  - exists st. split; [by apply for_each_keep_Some|done].
Qed.

Lemma hour_body_reads_u self S u st t :
  is_Some (hour_body self S u st t) -> is_Some (u !! t).
Proof.
  unfold hour_body, np_get. intros [st' Hb].
  destruct (SOC_capacity_decay self !! t); simpl in Hb; [|done].
  destruct (u !! t); [done|]. done.
Qed.

(** X4: on an instance that holds a 24-hour scenario, [energy_cost]
    returns a cost exactly when the solution has at least 25 elements (the
    capacity and 24 dispatch fractions); a shorter solution raises. *)
Theorem energy_cost_returns (population iters : nat) (sc : Scenario)
    (solution : list R) :
  scenario_shape sc ->
  is_Some (energy_cost (set_scenario sc (init 24 population iters)) solution).2
  <-> (25 <= length solution)%nat.
Proof.
  intros Hshape. unfold energy_cost.
  destruct solution as [|S u]; simpl np_get.
  { simpl. split; [by intros [? ?]|lia]. }
  cbn [lookup list_lookup drop]. rewrite drop_0.
  cbn [hours set_scenario init]. split.
  - destruct (for_each_keep _ _ _) as [st ok] eqn:Hrun. cbn [snd].
    destruct ok; [|by intros [? ?]]. intros _.
    apply for_each_keep_true in Hrun.
    destruct (for_each_Some_body _ _ _ _ Hrun 23%nat) as [s Hs].
    { unfold py_range. apply elem_of_seq. lia. }
    apply hour_body_reads_u in Hs as [u_t Hu].
    apply lookup_lt_Some in Hu. simpl. lia.
  - intros Hlen. simpl in Hlen.
    destruct (hours_loop_inv population iters sc S u (fun _ _ => True)
                {| total_cost := capital_cost (set_scenario sc (init 24 population iters)) * S;
                   SOC := 0.5; SOC_history := []; self_temperature := 25 |})
      as (st & -> & _); [done|lia|done|done|].
    cbn [snd]. unfold cost_tail.
    cbn [P_gen P_demand set_scenario mbind option_bind]. done.
Qed.

Lemma energy_cost_returns_witness :
  is_Some (energy_cost (set_scenario (steady_scenario 0 80 0.2) (init 24 30 50))
             (idle_solution 100)).2
  <-> (25 <= length (idle_solution 100))%nat.
Proof.
  apply (energy_cost_returns 30 50 (steady_scenario 0 80 0.2) (idle_solution 100)).
  repeat split; reflexivity.
Defined.

(** X5: before [load_data] has run, or on any instance where [P_gen] or
    [P_demand] was never assigned, [energy_cost] raises for every
    solution. *)
Theorem energy_cost_needs_scenario (self : RenewableOptimizer)
    (solution : list R) :
  P_gen self = None \/ P_demand self = None ->
  (energy_cost self solution).2 = None.
Proof.
  intros Hmissing. unfold energy_cost.
  destruct (np_get solution 0) as [S|]; [|done].
  destruct (for_each_keep _ _ _) as [st ok]. cbn [snd].
  destruct ok; [|done]. unfold cost_tail.
  destruct Hmissing as [-> | ->]; [done|]. by destruct (P_gen self).
Qed.

Lemma energy_cost_needs_scenario_witness :
  (energy_cost (init 24 30 50) (idle_solution 100)).2 = None.
Proof.
  apply (energy_cost_needs_scenario (init 24 30 50) (idle_solution 100)).
  by left.
Defined.

Lemma heat_snoc (u : list R) (x : R) : heat (u ++ [x]) = heat u + Rabs x / 0.05.
Proof. unfold heat. by rewrite foldl_app. Qed.

Lemma heat_ge (u : list R) : 25 <= heat u.
Proof.
  induction u as [|x u IH] using rev_ind; [unfold heat; simpl; lra|].
  rewrite heat_snoc. pose proof (Rabs_pos x). lra.
Qed.

(** In exact arithmetic, on a 24-hour scenario and with a capacity that is
    not zero, the call leaves [self.temperature] at
    [25 + sum of |u_t| / 0.05] over the 24 dispatch fractions (in float64
    up to the rounding of [P_bess / effective_S]); it is at least 25, and
    nothing else of the instance changes. *)
Lemma energy_cost_temperature (population iters : nat) (sc : Scenario)
    (S : R) (u : list R) :
  scenario_shape sc -> (24 <= length u)%nat -> S <> 0 ->
  (energy_cost (set_scenario sc (init 24 population iters)) (S :: u)).1
  = set_temperature (heat (take 24 u))
      (set_scenario sc (init 24 population iters)) /\
  25 <= heat (take 24 u).
Proof.
  intros Hshape Hu HS. split; [|apply heat_ge].
  unfold energy_cost. cbn [np_get lookup list_lookup drop]. rewrite drop_0.
  cbn [hours set_scenario init].
  destruct (hours_loop_inv population iters sc S u
              (fun t st => self_temperature st = heat (take t u))
              {| total_cost := capital_cost (set_scenario sc (init 24 population iters)) * S;
                 SOC := 0.5; SOC_history := []; self_temperature := 25 |})
    as (st & -> & Hend); [done|done|done| |by rewrite <- Hend].
  intros t st u_t d_t g_t e_t a_t p_t Ht HT Hut _ _ _ _ _.
  unfold hour_update. cbn [self_temperature].
  rewrite (take_S_r _ _ _ Hut), heat_snoc, HT. do 2 f_equal.
  f_equal. field. split; [|done].
  assert (0 <= INR t <= 23) as Hr.
  { split; [apply pos_INR|]. replace 23 with (INR 23) by (simpl; lra).
    apply le_INR. lia. }
  lra.
Qed.

(** ** energy_cost: the emergency surcharge and the grid penalty are additive *)

Lemma for_each_seq_total2 {St} (body1 body2 : St -> nat -> option St)
    (P : nat -> St -> St -> Prop) n : forall a s1 s2,
  P a s1 s2 ->
  (forall t s1 s2, (a <= t < a + n)%nat -> P t s1 s2 ->
     exists s1' s2', body1 s1 t = Some s1' /\ body2 s2 t = Some s2' /\
                     P (Datatypes.S t) s1' s2') ->
  exists s1' s2',
    for_each body1 (seq a n) s1 = Some s1' /\
    for_each body2 (seq a n) s2 = Some s2' /\ P (a + n)%nat s1' s2'.
Proof.
  induction n as [|n IH]; intros a s1 s2 HP Hstep; simpl.
  - exists s1, s2. by rewrite Nat.add_0_r.
  - destruct (Hstep a s1 s2) as (s1' & s2' & -> & -> & HP'); [lia|done|].
    simpl.
    destruct (IH (Datatypes.S a) s1' s2' HP') as (t1 & t2 & -> & -> & Hend).
    + intros t r1 r2 Ht. apply Hstep. lia.
    + exists t1, t2. by rewrite <- Nat.add_succ_comm.
Qed.

Lemma hour_update_events self self' S decay u_t d g e a p s1 s2 t :
  charge_eff self = charge_eff self' ->
  discharge_eff self = discharge_eff self' ->
  SOC_min self = SOC_min self' -> SOC_max self = SOC_max self' ->
  same_battery_state s1 s2 ->
  let s1' := hour_update self S decay u_t d g e a p s1 t in
  let s2' := hour_update self' S decay u_t d g 0 1 p s2 t in
  same_battery_state s1' s2' /\
  total_cost s1' - total_cost s2'
  = total_cost s1 - total_cost s2
    + ((if decide (e ≠ 0%Z)
        then py_max 0 (d * 1.5 - (g + u_t * (S * decay))) * 1000 else 0)
       + (if decide (a = 0%Z ∧ d - g - u_t * (S * decay) > 0) then 1e6 else 0)).
Proof.
  intros Hc Hd Hmin Hmax (Hsoc & Hhist & Htemp).
  unfold hour_update, same_battery_state.
  cbn [total_cost SOC SOC_history self_temperature].
  rewrite Hc, Hd, Hmin, Hmax, Hsoc, Hhist, Htemp.
  split; [done|].
  rewrite (decide_False (P := (0 ≠ 0)%Z)) by lia.
  rewrite (decide_False (P := (1%Z = 0%Z ∧ _))) by lia.
  repeat case_decide; lra.
Qed.

(** X6: the emergency surcharge and the grid-unavailability penalty are
    purely additive.  On a 24-hour scenario the cost of a solution is its
    cost on the same scenario with no emergency and the grid always
    available, plus, for every hour, 1000 times the shortfall
    [max(0, 1.5*demand - (generation + battery power))] if the hour is an
    emergency and 1e6 if the grid is unavailable while power is drawn from
    it.  The events change nothing else (SOC, temperature, other terms). *)
Theorem energy_cost_events_additive (population iters : nat) (sc : Scenario)
    (S : R) (u : list R) :
  scenario_shape sc -> (24 <= length u)%nat ->
  exists c0,
    (energy_cost (set_scenario (without_events sc) (init 24 population iters))
       (S :: u)).2 = Some c0 /\
    (energy_cost (set_scenario sc (init 24 population iters)) (S :: u)).2
    = Some (c0 + py_sum (event_cost sc S u <$> seq 0 24)).
Proof.
  intros (Hgen & Hdem & Hprice & Havail & Hemer) Hu.
  unfold energy_cost. cbn [np_get lookup list_lookup drop]. rewrite drop_0.
  cbn [hours set_scenario init capital_cost]. unfold py_range.
  set (st0 := {| total_cost := 500 * S; SOC := 0.5; SOC_history := [];
                 self_temperature := 25 |}).
  destruct (for_each_seq_total2
              (hour_body (set_scenario sc (init 24 population iters)) S u)
              (hour_body (set_scenario (without_events sc)
                            (init 24 population iters)) S u)
              (fun t s1 s2 =>
                 same_battery_state s1 s2 /\
                 total_cost s1 - total_cost s2
                 = py_sum (event_cost sc S u <$> seq 0 t))
              (24 - 0) 0 st0 st0) as (s1 & s2 & Hrun1 & Hrun2 & _ & Hcost).
  - split; [done|]. unfold py_sum. simpl. lra.
  - intros t r1 r2 Ht [Hsame Hacc].
    destruct (lookup_lt_is_Some_2 u t) as [u_t Hut]; [lia|].
    destruct (lookup_lt_is_Some_2 (sc_P_demand sc) t) as [d_t Hd]; [lia|].
    destruct (lookup_lt_is_Some_2 (sc_P_gen sc) t) as [g_t Hg]; [lia|].
    destruct (lookup_lt_is_Some_2 (sc_emergency_event sc) t) as [e_t He]; [lia|].
    destruct (lookup_lt_is_Some_2 (sc_grid_available sc) t) as [a_t Ha]; [lia|].
    destruct (lookup_lt_is_Some_2 (sc_grid_price sc) t) as [p_t Hp]; [lia|].
    rewrite (hour_body_Some _ S u r1 t (1.0 - 0.005 * INR t) u_t
               (sc_P_demand sc) d_t (sc_P_gen sc) g_t e_t
               (sc_grid_available sc) a_t (sc_grid_price sc) p_t);
      try done; [|apply decay_lookup; lia].
    rewrite (hour_body_Some _ S u r2 t (1.0 - 0.005 * INR t) u_t
               (sc_P_demand sc) d_t (sc_P_gen sc) g_t 0%Z
               (replicate 24 1%Z) 1%Z (sc_grid_price sc) p_t);
      try done; try (apply lookup_replicate_2; lia);
      [|apply decay_lookup; lia].
    eexists _, _. split; [done|]. split; [done|].
    destruct (hour_update_events
                (set_scenario sc (init 24 population iters))
                (set_scenario (without_events sc) (init 24 population iters))
                S (1.0 - 0.005 * INR t) u_t d_t g_t e_t a_t p_t r1 r2 t)
      as [Hsame' Hcost']; try done.
    split; [done|].
    assert (event_cost sc S u t
            = (if decide (e_t ≠ 0%Z)
               then py_max 0 (d_t * 1.5
                              - (g_t + u_t * (S * (1.0 - 0.005 * INR t)))) * 1000
               else 0)
              + (if decide (a_t = 0%Z
                            ∧ d_t - g_t - u_t * (S * (1.0 - 0.005 * INR t)) > 0)
                 then 1e6 else 0)) as Hev
      by (unfold event_cost; by rewrite Hut, Hd, Hg, He, Ha).
    rewrite Hcost', Hacc, seq_S, fmap_app. unfold py_sum.
    rewrite foldl_app. cbn [foldl fmap list_fmap]. rewrite Nat.add_0_l, Hev. lra.
  - rewrite (for_each_keep_Some _ _ _ _ Hrun1), (for_each_keep_Some _ _ _ _ Hrun2).
    cbn [snd]. unfold cost_tail.
    cbn [P_gen P_demand set_scenario without_events sc_P_gen sc_P_demand
         mbind option_bind].
    eexists. split; [done|]. f_equal.
    change (0 + (24 - 0))%nat with 24%nat in Hcost.
    case_decide; lra.
Qed.

Lemma energy_cost_events_additive_witness :
  exists c0,
    (energy_cost (set_scenario (without_events (steady_scenario 0 80 0.2))
                    (init 24 30 50)) (100 :: replicate 24 0)).2 = Some c0 /\
    (energy_cost (set_scenario (steady_scenario 0 80 0.2) (init 24 30 50))
       (100 :: replicate 24 0)).2
    = Some (c0 + py_sum (event_cost (steady_scenario 0 80 0.2) 100
                           (replicate 24 0) <$> seq 0 24)).
Proof.
  apply (energy_cost_events_additive 30 50 (steady_scenario 0 80 0.2) 100
           (replicate 24 0)); [repeat split; reflexivity | simpl; lia].
Defined.

(** ** load_data: when it returns *)

Lemma np_broadcast_mismatch f (xs ys : list R) :
  length xs ≠ length ys -> length xs ≠ 1%nat -> length ys ≠ 1%nat ->
  np_broadcast f xs ys = None.
Proof.
  intros Hne Hx Hy. unfold np_broadcast. rewrite decide_False by done.
  destruct xs as [|x [|x' xs]]; [|done|];
    destruct ys as [|y [|y' ys]]; done.
Qed.

Lemma np_broadcast_left1 f (x : R) (ys : list R) :
  length ys ≠ 1%nat -> np_broadcast f [x] ys = Some (f x <$> ys).
Proof.
  intros Hy. unfold np_broadcast. rewrite decide_False by (simpl; lia). done.
Qed.

Lemma np_imul_at_out_of_range (a : list R) (idx : list nat) (f : list R)
    (i : nat) :
  i ∈ idx -> (length a <= i)%nat -> np_imul_at a idx f = None.
Proof.
  intros Hi Hlen. unfold np_imul_at.
  destruct (mapM (np_get a) idx) as [vals|] eqn:Hm; [|done].
  apply mapM_Some in Hm. apply list_elem_of_lookup in Hi as [k Hk].
  destruct (Forall2_lookup_l _ _ _ _ _ Hm Hk) as (v & _ & Hv).
  unfold np_get in Hv. apply lookup_lt_Some in Hv. lia.
Qed.

(** Four distinct hours are not all hour 0. *)
Lemma distinct_hours_beyond_first (idx : list nat) :
  NoDup idx -> length idx = 4%nat -> exists i, i ∈ idx /\ (1 <= i)%nat.
Proof.
  intros Hnd Hlen. destruct idx as [|a [|b rest]]; [done|done|].
  apply NoDup_cons in Hnd as [Hab _].
  destruct (decide (a = 0%nat)) as [->|Ha].
  - exists b. split; [apply list_elem_of_further, list_elem_of_here|].
    destruct b; [|lia]. exfalso. apply Hab, list_elem_of_here.
  - exists a. split; [apply list_elem_of_here|lia].
Qed.

(** The next call of a sequence either raises, which ends the proof, or
    returns. *)
Ltac destruct_bind :=
  match goal with
  | |- context [mbind _ ?x] => destruct x; cbn [mbind option_bind]; [|done]
  end.

Section load_data_raises.
Context `{NumpyRandom}.

Lemma load_data_wrong_hours (self : RenewableOptimizer) (trial_num : Z)
    (g : rng_state) :
  hours self ≠ 24%nat -> load_data self trial_num g = None.
Proof.
  intros Hh. unfold load_data.
  destruct (np_random_seed trial_num) as [g0|]; [|done].
  cbn [mbind option_bind].
  pose proof (randn_length (hours self) g0) as Hz.
  destruct (np_random_randn (hours self) g0) as [z g1].
  pose proof (choice_length [0; 1]%Z 24 [0.9; 0.1] g1) as Hsf.
  destruct (np_random_choice _ _ _ g1) as [sf g2].
  destruct (np_random_choice _ _ _ g2) as [wf g3].
  destruct (np_random_choice _ _ _ g3) as [ga g4].
  destruct (np_random_choice _ _ _ g4) as [ee g5].
  destruct (np_random_normal _ _ _ g5) as [noise g6].
  pose proof (choice_distinct_length 24 4 g6) as Hsl.
  pose proof (choice_distinct_NoDup 24 4 g6) as Hnd.
  destruct (np_random_choice_distinct _ _ g6) as [spikes g7].
  destruct (np_random_uniform _ _ _ g7) as [factors g8].
  cbn [fst] in *. specialize (Hsf ltac:(done)). specialize (Hsl ltac:(lia)).
  assert (length (np_arange (hours self)) = hours self) as Ht
    by (unfold np_arange; by rewrite length_fmap, length_seq).
  unfold np_mul, np_add.
  assert (forall base : Z -> R,
            np_broadcast Rmult (base <$> np_arange (hours self))
              ((fun z => 1 + data_variation self * z) <$> z)
            = Some (zip_with Rmult (base <$> np_arange (hours self))
                      ((fun z => 1 + data_variation self * z) <$> z))) as Hbase
    by (intros base; apply np_broadcast_same_length;
        by rewrite !length_fmap, Ht, Hz).
  rewrite !Hbase. cbn [mbind option_bind].
  destruct (decide (hours self = 1%nat)) as [H1|H1].
  - (* broadcasting goes through, but the spike hours are out of range *)
    destruct (distinct_hours_beyond_first spikes Hnd Hsl) as (i & Hi & Hge).
    rewrite (np_imul_at_out_of_range _ spikes factors i Hi)
      by (rewrite length_fmap, length_zip_with, !length_fmap, Ht, Hz, H1;
          simpl; lia).
    repeat destruct_bind. done.
  - rewrite (np_broadcast_mismatch Rmult _ (IZR <$> sf)); [reflexivity| | |].
    + rewrite length_zip_with, !length_fmap, Ht, Hz, Hsf. lia.
    + rewrite length_zip_with, !length_fmap, Ht, Hz. lia.
    + rewrite length_fmap, Hsf. lia.
Qed.

(** A call that returns ran on 24 hours with a seed numpy accepts. *)
Lemma load_data_Some_inv (self : RenewableOptimizer) (trial_num : Z)
    (g : rng_state) :
  is_Some (load_data self trial_num g) ->
  hours self = 24%nat /\ (0 <= trial_num < 2 ^ 32)%Z.
Proof.
  intros Hsome. split.
  - destruct (decide (hours self = 24%nat)) as [|Hne]; [done|].
    rewrite load_data_wrong_hours in Hsome by done. by destruct Hsome.
  - apply seed_range. unfold load_data in Hsome.
    destruct (np_random_seed trial_num); [done|]. by destruct Hsome.
Qed.

(** X7: [load_data] returns exactly when the instance was built with
    [hours = 24] and the seed is one [np.random.seed] accepts
    ([0 <= trial_num < 2**32]); for any other [hours] the array shapes do
    not agree (or the spike hours are out of range) and the call raises. *)
Theorem load_data_returns (self : RenewableOptimizer) (trial_num : Z)
    (g : rng_state) :
  is_Some (load_data self trial_num g) <->
  hours self = 24%nat /\ (0 <= trial_num < 2 ^ 32)%Z.
Proof.
  split; [apply load_data_Some_inv|].
  intros [Hh Hs]. apply seed_range in Hs as [g0 Hg0].
  by rewrite (load_data_24 self trial_num g g0).
Qed.

End load_data_raises.

(** ** load_data: flags, total generation and price spikes *)

Lemma store_all_lookup_other (ivs : list (nat * R)) (t : nat) : forall a,
  t ∉ ivs.*1 -> store_all a ivs !! t = a !! t.
Proof.
  induction ivs as [|[i v] ivs IH]; intros a Ht; [done|].
  simpl in Ht. apply not_elem_of_cons in Ht as [Hne Ht].
  unfold store_all in *. simpl. rewrite IH by done.
  by apply list_lookup_insert_ne.
Qed.

Lemma store_all_lookup_stored (ivs : list (nat * R)) (t : nat) (v : R) :
  forall a, NoDup ivs.*1 -> (t, v) ∈ ivs -> (t < length a)%nat ->
  store_all a ivs !! t = Some v.
Proof.
  induction ivs as [|[i w] ivs IH]; intros a Hnd Hin Hlen;
    [by apply elem_of_nil in Hin|].
  simpl in Hnd. apply NoDup_cons in Hnd as [Hi Hnd].
  apply elem_of_cons in Hin as [[= <- <-]|Hin].
  - change (store_all a ((t, v) :: ivs)) with (store_all (<[t := v]> a) ivs).
    rewrite store_all_lookup_other by done.
    by apply list_lookup_insert_eq.
  - change (store_all a ((i, w) :: ivs)) with (store_all (<[i := w]> a) ivs).
    apply IH; [done|done|by rewrite length_insert].
Qed.

Section scenario_details.
Context `{NumpyRandom}.

Lemma draw_all_flags (g : rng_state) :
  Forall is_flag (dr_solar_failure (draw_all g)) /\
  Forall is_flag (dr_wind_failure (draw_all g)) /\
  Forall is_flag (dr_grid_available (draw_all g)) /\
  Forall is_flag (dr_emergency_event (draw_all g)).
Proof.
  assert (forall l : list Z, Forall (fun x => x ∈ [0; 1]%Z) l -> Forall is_flag l)
    as Hflag.
  { intros l Hl. eapply Forall_impl; [exact Hl|]. intros x Hx. unfold is_flag.
    apply elem_of_cons in Hx as [->|Hx]; [by left|].
    apply list_elem_of_singleton in Hx as ->. by right. }
  unfold draw_all.
  destruct (np_random_randn 24 g) as [z g1].
  pose proof (choice_elem [0; 1]%Z 24 [0.9; 0.1] g1) as Hsf.
  destruct (np_random_choice _ _ _ g1) as [sf g2].
  pose proof (choice_elem [0; 1]%Z 24 [0.85; 0.15] g2) as Hwf.
  destruct (np_random_choice _ _ _ g2) as [wf g3].
  pose proof (choice_elem [0; 1]%Z 24 [0.2; 0.8] g3) as Hga.
  destruct (np_random_choice _ _ _ g3) as [ga g4].
  pose proof (choice_elem [0; 1]%Z 24 [0.9; 0.1] g4) as Hee.
  destruct (np_random_choice _ _ _ g4) as [ee g5].
  destruct (np_random_normal _ _ _ g5) as [noise g6].
  destruct (np_random_choice_distinct _ _ g6) as [spikes g7].
  destruct (np_random_uniform _ _ _ g7) as [factors g8].
  simpl in *. auto.
Qed.

Lemma draw_all_spikes_NoDup (g : rng_state) :
  NoDup (dr_spike_hours (draw_all g)).
Proof.
  unfold draw_all.
  destruct (np_random_randn 24 g) as [z g1].
  destruct (np_random_choice _ _ _ g1) as [sf g2].
  destruct (np_random_choice _ _ _ g2) as [wf g3].
  destruct (np_random_choice _ _ _ g3) as [ga g4].
  destruct (np_random_choice _ _ _ g4) as [ee g5].
  destruct (np_random_normal _ _ _ g5) as [noise g6].
  pose proof (choice_distinct_NoDup 24 4 g6) as Hnd.
  destruct (np_random_choice_distinct _ _ g6) as [spikes g7].
  destruct (np_random_uniform _ _ _ g7) as [factors g8].
  exact Hnd.
Qed.

(** X8: in a loaded scenario the four flag arrays hold only 0 and 1, the
    total generation is the element-wise sum of the solar and the wind
    generation, and it is nowhere negative. *)
Theorem load_data_flags_and_total (self self' : RenewableOptimizer)
    (trial_num : Z) (g g' : rng_state) (sc : Scenario) :
  load_data self trial_num g = Some (self', g') ->
  get_scenario self' = Some sc ->
  Forall is_flag (sc_solar_failure sc) /\ Forall is_flag (sc_wind_failure sc) /\
  Forall is_flag (sc_grid_available sc) /\
  Forall is_flag (sc_emergency_event sc) /\
  sc_P_gen sc = zip_with Rplus (sc_P_solar sc) (sc_P_wind sc) /\
  Forall (fun x => 0 <= x) (sc_P_gen sc).
Proof.
  intros Hload Hsc.
  assert (is_Some (load_data self trial_num g)) as Hsome by (by eexists).
  apply load_data_Some_inv in Hsome as [Hh Hs].
  apply seed_range in Hs as [g0 Hg0].
  rewrite (load_data_24 self trial_num g g0 Hh Hg0) in Hload.
  injection Hload as <- <-. rewrite get_set_scenario in Hsc.
  injection Hsc as <-.
  destruct (draw_all_flags g0) as (Hsf & Hwf & Hga & Hee).
  cbn [scenario_from sc_solar_failure sc_wind_failure sc_grid_available
       sc_emergency_event sc_P_gen sc_P_solar sc_P_wind].
  repeat (split; [done|]).
  apply (Forall_zip_with (fun x => 0 <= x) (fun x => 0 <= x));
    [intros; lra|apply generation_nonneg|apply generation_nonneg].
Qed.

(** X9: the price of a loaded scenario.  Before the spikes the price of
    hour [t] is the noisy base price with the floor 0.05; the four spike
    hours are distinct, the price of the [k]-th spike hour is its floored
    price times the [k]-th factor, which lies in [3, 5], and the price of
    every other hour is its floored price. *)
Theorem load_data_price_spikes (self : RenewableOptimizer) (trial_num : Z)
    (g g0 : rng_state) :
  hours self = 24%nat -> np_random_seed trial_num = Some g0 ->
  let d := draw_all g0 in
  let floored := floored_price (data_variation self) d in
  exists self' g' sc,
    load_data self trial_num g = Some (self', g') /\
    get_scenario self' = Some sc /\
    NoDup (dr_spike_hours d) /\ length (dr_spike_hours d) = 4%nat /\
    (forall t, (t < 24)%nat -> t ∉ dr_spike_hours d ->
               sc_grid_price sc !! t = floored !! t) /\
    (forall k t, dr_spike_hours d !! k = Some t ->
       exists p x, floored !! t = Some p /\ dr_factors d !! k = Some x /\
                   3 <= x <= 5 /\ 0.05 <= p /\
                   sc_grid_price sc !! t = Some (p * x)).
Proof.
  intros Hh Hseed d floored.
  destruct (draw_all_shape g0)
    as (Hz & _ & _ & _ & _ & _ & Hsl & Hfl & Hsb & Hfr).
  pose proof (draw_all_spikes_NoDup g0) as Hnd.
  fold d in Hz, Hsl, Hfl, Hsb, Hfr, Hnd.
  exists (set_scenario (scenario_from (data_variation self) d) self),
    (dr_state d), (scenario_from (data_variation self) d).
  split; [by apply load_data_24|]. split; [apply get_set_scenario|].
  split; [done|]. split; [done|].
  assert (length floored = 24%nat) as Hlen
    by (by apply floored_price_length).
  set (prods := zip_with Rmult
                  ((fun i => default 0 (floored !! i)) <$> dr_spike_hours d)
                  (dr_factors d)).
  assert (length prods = 4%nat) as Hpl
    by (unfold prods; rewrite length_zip_with, length_fmap; lia).
  assert ((zip (dr_spike_hours d) prods).*1 = dr_spike_hours d) as Hfst
    by (apply fst_zip; lia).
  cbn [scenario_from sc_grid_price]. fold floored. fold prods. split.
  - intros t Ht Hnot. apply store_all_lookup_other. by rewrite Hfst.
  - intros k t Hk.
    assert (t < 24)%nat as Ht
      by (by eapply (Forall_lookup_1 _ _ _ _ Hsb)).
    destruct (lookup_lt_is_Some_2 floored t) as [p Hp]; [lia|].
    destruct (lookup_lt_is_Some_2 (dr_factors d) k) as [x Hx].
    { apply lookup_lt_Some in Hk. lia. }
    exists p, x. split; [done|]. split; [done|].
    split; [by eapply (Forall_lookup_1 _ _ _ _ Hfr)|].
    split.
    { by eapply (Forall_lookup_1 _ _ _ _
                   (floored_price_floor (data_variation self) d)). }
    apply store_all_lookup_stored; [by rewrite Hfst| |lia].
    apply list_elem_of_lookup. exists k.
    rewrite lookup_zip_with. rewrite Hk. simpl.
    unfold prods. rewrite lookup_zip_with, list_lookup_fmap, Hk, Hx. simpl.
    by rewrite Hp.
Qed.

End scenario_details.

Lemma load_data_flags_and_total_witness :
  let sc := @scenario_from (fixed_random 0 1 0) 0.15
              (@draw_all (fixed_random 0 1 0) ()) in
  Forall is_flag (sc_solar_failure sc) /\ Forall is_flag (sc_wind_failure sc) /\
  Forall is_flag (sc_grid_available sc) /\
  Forall is_flag (sc_emergency_event sc) /\
  sc_P_gen sc = zip_with Rplus (sc_P_solar sc) (sc_P_wind sc) /\
  Forall (fun x => 0 <= x) (sc_P_gen sc).
Proof.
  apply (@load_data_flags_and_total (fixed_random 0 1 0) (init 24 30 50)
           (set_scenario (@scenario_from (fixed_random 0 1 0) 0.15
                            (@draw_all (fixed_random 0 1 0) ()))
              (init 24 30 50)) 0 () ()).
  - apply load_data_fixed; [reflexivity|lia].
  - apply get_set_scenario.
Defined.

Lemma load_data_price_spikes_witness :
  let d := @draw_all (fixed_random 0 0 0) () in
  let floored := @floored_price (fixed_random 0 0 0) 0.15 d in
  exists self' g' sc,
    @load_data (fixed_random 0 0 0) (init 24 30 50) 0 () = Some (self', g') /\
    get_scenario self' = Some sc /\
    NoDup (dr_spike_hours d) /\ length (dr_spike_hours d) = 4%nat /\
    (forall t, (t < 24)%nat -> t ∉ dr_spike_hours d ->
               sc_grid_price sc !! t = floored !! t) /\
    (forall k t, dr_spike_hours d !! k = Some t ->
       exists p x, floored !! t = Some p /\ dr_factors d !! k = Some x /\
                   3 <= x <= 5 /\ 0.05 <= p /\
                   sc_grid_price sc !! t = Some (p * x)).
Proof.
  apply (@load_data_price_spikes (fixed_random 0 0 0) (init 24 30 50) 0 () ());
    reflexivity.
Defined.

(** ** run_multiple_trials: entries, set-up failures, consistency *)

Section harness_entries.
Context {World : Type} (cls : OptimizerClass World).

Lemma trials_loop_unregistered algorithms trials b : forall w results final,
  results !! b = None ->
  trials_loop cls algorithms trials w results = Some final ->
  final !! b = None.
Proof.
  induction trials as [|trial rest IH]; intros w results final Hb; simpl.
  - by intros [= <-].
  - destruct (new_optimizer cls trial w) as [w1|]; [|done]. simpl.
    destruct (run_algorithms cls algorithms w1 ∅) as [w2 tr].
    apply IH. rewrite append_trial_lookup, Hb. by destruct (tr !! b).
Qed.

Lemma trials_loop_setup_fails algorithms trials k : forall w results,
  k ∈ trials -> (forall w, new_optimizer cls k w = None) ->
  trials_loop cls algorithms trials w results = None.
Proof.
  induction trials as [|trial rest IH]; intros w results Hk Hfail;
    [by apply elem_of_nil in Hk|].
  simpl. destruct (new_optimizer cls trial w) as [w1|] eqn:Hnew; [|done].
  simpl. destruct (run_algorithms cls algorithms w1 ∅) as [w2 tr].
  apply elem_of_cons in Hk as [->|Hk]; [by rewrite Hfail in Hnew|].
  by apply IH.
Qed.

End harness_entries.

(** X10: when the set-up of the trials does not raise, the harness returns
    a collection whose keys are exactly the registered names, each with
    [num_trials] costs, histories and solutions, whether the runs of the
    algorithm failed or not. *)
Theorem run_multiple_trials_entries {World : Type} (cls : OptimizerClass World)
    (algorithms : list (string * string)) (n : nat) (w : World) :
  (forall trial w, is_Some (new_optimizer cls trial w)) ->
  exists results,
    run_multiple_trials cls algorithms n w = Some results /\
    forall b,
      (b ∈ algorithms.*1 ->
       exists r, results !! b = Some r /\ length (costs r) = n /\
                 length (histories r) = n /\ length (solutions r) = n) /\
      (b ∉ algorithms.*1 -> results !! b = None).
Proof.
  intros Hsetup. unfold run_multiple_trials.
  destruct (trials_loop_grows cls algorithms (py_range 0 n) w
              (list_to_map ((fun item => (item.1, empty_results)) <$> algorithms))
              Hsetup) as (results & Hrun & Hgrow).
  assert (length (py_range 0 n) = n) as Hlen
    by (unfold py_range; rewrite length_seq; lia).
  exists results. split; [done|]. intros b. split.
  - intros Hb. destruct (Hgrow b empty_results Hb) as (r & Hr & Hc & Hh & Hs).
    { rewrite initial_results_lookup. by rewrite decide_True. }
    exists r. rewrite Hlen in *. by simpl in *.
  - intros Hb. eapply trials_loop_unregistered; [|exact Hrun].
    rewrite initial_results_lookup. by rewrite decide_False.
Qed.

Lemma run_multiple_trials_entries_witness :
  exists results,
    run_multiple_trials demo_class demo_algorithms 2 0%nat = Some results /\
    forall b,
      (b ∈ demo_algorithms.*1 ->
       exists r, results !! b = Some r /\ length (costs r) = 2%nat /\
                 length (histories r) = 2%nat /\ length (solutions r) = 2%nat) /\
      (b ∉ demo_algorithms.*1 -> results !! b = None).
Proof.
  apply (run_multiple_trials_entries demo_class demo_algorithms 2 0%nat).
  intros trial w. exists 0%nat. reflexivity.
Defined.

(** X11: an exception in the set-up of a trial (the constructor or
    [load_data], outside the [try]) is not isolated: when the set-up of
    trial [k < num_trials] raises, the harness raises and returns nothing,
    whatever the earlier trials recorded. *)
Theorem run_multiple_trials_setup_raises {World : Type}
    (cls : OptimizerClass World) (algorithms : list (string * string))
    (n k : nat) (w : World) :
  (k < n)%nat -> (forall w, new_optimizer cls k w = None) ->
  run_multiple_trials cls algorithms n w = None.
Proof.
  intros Hk Hfail. unfold run_multiple_trials.
  apply (trials_loop_setup_fails cls algorithms (py_range 0 n) k); [|done].
  unfold py_range. apply elem_of_seq. lia.
Qed.

Lemma run_multiple_trials_setup_raises_witness :
  run_multiple_trials demo_class_setup_fails demo_algorithms 3 0%nat = None.
Proof.
  apply (run_multiple_trials_setup_raises demo_class_setup_fails
           demo_algorithms 3 1 0%nat); [lia|reflexivity].
Defined.

Lemma record_outcome_consistent (o : option (list R * list npfloat)) :
  entry_consistent (tr_cost (record_outcome o)) (tr_history (record_outcome o))
    (tr_solution (record_outcome o)).
Proof. destruct o as [[best_x history]|]; by split. Qed.

Lemma append_result_consistent (data : TrialResult) (r : AlgoResults) :
  entry_consistent (tr_cost data) (tr_history data) (tr_solution data) ->
  results_consistent r -> results_consistent (append_result data r).
Proof.
  intros Hdata (Hl1 & Hl2 & Hr). unfold results_consistent, append_result.
  simpl. rewrite !length_app. simpl. split; [lia|]. split; [lia|].
  intros i c h s Hc Hh Hs.
  destruct (decide (i < length (costs r))%nat) as [Hi|Hi].
  - rewrite lookup_app_l in Hc by lia. rewrite lookup_app_l in Hh by lia.
    rewrite lookup_app_l in Hs by lia. by eapply Hr.
  - assert (i = length (costs r)) as ->.
    { apply lookup_lt_Some in Hc. rewrite length_app in Hc. simpl in Hc. lia. }
    rewrite list_lookup_middle in Hc by done.
    rewrite list_lookup_middle in Hh by lia.
    rewrite list_lookup_middle in Hs by lia.
    by injection Hc as <-; injection Hh as <-; injection Hs as <-.
Qed.

Section harness_consistency.
Context {World : Type} (cls : OptimizerClass World).

Lemma run_algorithms_consistent algorithms : forall w trial_results,
  map_Forall (fun _ d => entry_consistent (tr_cost d) (tr_history d)
                           (tr_solution d)) trial_results ->
  map_Forall (fun _ d => entry_consistent (tr_cost d) (tr_history d)
                           (tr_solution d))
    (run_algorithms cls algorithms w trial_results).2.
Proof.
  induction algorithms as [|[name method_name] rest IH];
    intros w trial_results Htr; simpl; [done|].
  destruct (call_method cls method_name w) as [w' o]. apply IH.
  apply map_Forall_insert_2; [apply record_outcome_consistent|done].
Qed.

Lemma trials_loop_consistent algorithms trials : forall w results final,
  map_Forall (fun _ r => results_consistent r) results ->
  trials_loop cls algorithms trials w results = Some final ->
  map_Forall (fun _ r => results_consistent r) final.
Proof.
  induction trials as [|trial rest IH]; intros w results final Hres; simpl.
  - by intros [= <-].
  - destruct (new_optimizer cls trial w) as [w1|]; [|done]. simpl.
    pose proof (run_algorithms_consistent algorithms w1 ∅
                  (map_Forall_empty _)) as Htr.
    destruct (run_algorithms cls algorithms w1 ∅) as [w2 tr]. simpl in Htr.
    apply IH. intros b r Hr. rewrite append_trial_lookup in Hr.
    destruct (tr !! b) as [data|] eqn:Hdata; [|by eapply Hres].
    destruct (results !! b) as [r0|] eqn:Hr0; [|done].
    injection Hr as <-. apply append_result_consistent.
    + by apply (Htr b data).
    + by apply (Hres b r0).
Qed.

End harness_consistency.

(** X12: in whatever the harness returns, the three lists of every
    algorithm have the same length, the cost of each trial is the last
    element of the history of that trial, or [+inf] when that history is
    empty, and a trial recorded without a solution has an empty history
    (and so the cost [+inf]). *)
Theorem run_multiple_trials_consistent {World : Type}
    (cls : OptimizerClass World) (algorithms : list (string * string))
    (n : nat) (w : World) (results : gmap string AlgoResults) (b : string)
    (r : AlgoResults) :
  run_multiple_trials cls algorithms n w = Some results ->
  results !! b = Some r -> results_consistent r.
Proof.
  unfold run_multiple_trials. intros Hrun Hr.
  eapply (trials_loop_consistent cls algorithms (py_range 0 n) w); [|done|done].
  intros b' r' Hr'. rewrite initial_results_lookup in Hr'.
  case_decide; [|done]. injection Hr' as <-.
  split; [done|]. split; [done|]. intros i c h s Hc. done.
Qed.

Lemma run_multiple_trials_consistent_witness :
  exists results r,
    run_multiple_trials demo_class demo_algorithms 2 0%nat = Some results /\
    results !! "GWO"%string = Some r /\ results_consistent r.
Proof.
  pose proof demo_run_recorded as Hdemo.
  destruct (run_multiple_trials demo_class demo_algorithms 2 0%nat)
    as [results|] eqn:Hrun; [|discriminate Hdemo].
  simpl in Hdemo. injection Hdemo as _ Hgwo.
  eexists results, _. split; [reflexivity|]. split; [exact Hgwo|].
  exact (run_multiple_trials_consistent demo_class demo_algorithms 2 0%nat
           results "GWO" _ Hrun Hgwo).
Defined.

(** ** analyze_results: the success rate, and a failing algorithm *)

Lemma finite_values_length (costs : list npfloat) :
  (length (finite_values costs) <= length costs)%nat.
Proof.
  induction costs as [|c costs IH]; [done|].
  unfold finite_values in *. destruct c; cbn in *; lia.
Qed.

Lemma finite_values_all (costs : list npfloat) :
  length (finite_values costs) = length costs <->
  Forall (fun c => np_isfinite c = true) costs.
Proof.
  induction costs as [|c costs IH]; [done|].
  pose proof (finite_values_length costs) as Hle.
  unfold finite_values in *. split.
  - intros Hlen. destruct c; cbn in Hlen, Hle; try lia.
    constructor; [done|]. apply IH. cbn. lia.
  - intros Hall. apply Forall_cons in Hall as [Hc Hall].
    destruct c; try done. cbn. f_equal. by apply IH.
Qed.

(** X13: for a collection with at least one trial, the success rate is 1
    exactly when every recorded cost is finite. *)
Theorem analyze_success_rate_one (data : AlgoResults) :
  costs data ≠ [] ->
  success_rate (analyze data) = Finite 1 <->
  Forall (fun c => np_isfinite c = true) (costs data).
Proof.
  intros Hne. unfold analyze.
  assert (0 < INR (length (costs data))) as Hn.
  { apply lt_0_INR. destruct (costs data); [done|simpl; lia]. }
  case_decide as Hv; cbn [success_rate].
  - split.
    + intros [= H0]. lra.
    + intros Hall. apply finite_values_all in Hall. rewrite Hv in Hall.
      rewrite <- Hall in Hn. simpl in Hn. lra.
  - rewrite <- finite_values_all. split.
    + intros [= Hr]. apply INR_eq.
      apply (Rmult_eq_compat_r (INR (length (costs data)))) in Hr.
      unfold Rdiv in Hr. rewrite Rmult_assoc, Rinv_l, Rmult_1_r, Rmult_1_l in Hr
        by lra.
      done.
    + intros ->. f_equal. field. lra.
Qed.

Lemma analyze_success_rate_one_witness :
  success_rate (analyze {| costs := [Finite 3; Finite 5]; histories := [];
                           solutions := [] |}) = Finite 1 <->
  Forall (fun c => np_isfinite c = true) [Finite 3; Finite 5].
Proof.
  apply (analyze_success_rate_one {| costs := [Finite 3; Finite 5];
                                     histories := []; solutions := [] |}).
  discriminate.
Defined.

(** X14: an algorithm whose method raises at every call is reported by
    [analyze_results] with NaN for mean, std, min and max and a success rate
    of 0; the analysis of the harness output does not raise on it. *)
Theorem failing_algorithm_analysis {World : Type} (cls : OptimizerClass World)
    (algorithms : list (string * string)) (n : nat) (w : World) (a m : string) :
  NoDup algorithms.*1 -> (a, m) ∈ algorithms ->
  (forall trial w, is_Some (new_optimizer cls trial w)) ->
  (forall w, (call_method cls m w).2 = None) ->
  exists results,
    run_multiple_trials cls algorithms n w = Some results /\
    analyze_results results !! a
    = Some {| mean := NaN; std := NaN; min := NaN; max := NaN;
              success_rate := Finite 0 |}.
Proof.
  intros Hnodup Hin Hsetup Hraise. unfold run_multiple_trials.
  set (results0 := list_to_map
                     ((fun item => (item.1, empty_results)) <$> algorithms)
                   : gmap string AlgoResults).
  destruct (trials_loop_grows cls algorithms (py_range 0 n) w results0 Hsetup)
    as (results & Hrun & _).
  exists results. split; [done|].
  assert (results0 !! a = Some empty_results) as Hinit.
  { unfold results0. rewrite initial_results_lookup.
    rewrite decide_True; [done|]. apply list_elem_of_fmap. by exists (a, m). }
  pose proof (trials_loop_failing cls algorithms a m (py_range 0 n) w results0
                empty_results Hnodup Hin Hraise Hinit results Hrun) as Ha.
  unfold analyze_results. rewrite lookup_fmap, Ha. cbn [fmap option_fmap option_map].
  f_equal. unfold analyze. cbn [costs empty_results app].
  assert (forall k, finite_values (replicate k np_inf) = []) as Hnone
    by (induction k; done).
  rewrite Hnone. rewrite decide_True by done. do 2 f_equal. lra.
Qed.

Lemma failing_algorithm_analysis_witness :
  exists results,
    run_multiple_trials demo_class demo_algorithms 2 0%nat = Some results /\
    analyze_results results !! "BAD"%string
    = Some {| mean := NaN; std := NaN; min := NaN; max := NaN;
              success_rate := Finite 0 |}.
Proof.
  apply (failing_algorithm_analysis demo_class demo_algorithms 2 0%nat
           "BAD" "run_bad").
  - simpl. apply NoDup_cons. split; [|apply NoDup_singleton].
    intros Hin. apply list_elem_of_singleton in Hin. discriminate Hin.
  - apply list_elem_of_here.
  - intros trial w. exists 0%nat. reflexivity.
  - intros w. reflexivity.
Defined.
